(** * truckmate-routes: trip planning, mock ELD logs and map overlays

    A shallow embedding of the TypeScript sources:
    - [src/pages/ReviewLogs.tsx]        (module [ReviewLogs])
    - [src/pages/PlanTrip.tsx]          (module [PlanTrip])
    - [src/context/MapContext] provider (module [MapContext])
    - [src/components/forms/CycleHoursSlider.tsx] (module [CycleHoursSlider])
    - [src/components/forms/LocationInput.tsx]    (module [LocationInput])

    JavaScript numbers are modelled by rationals ([Q]); the values that
    occur (hours on a half-hour grid, literal durations, coordinates) are
    represented exactly.  React state is a record, a handler is a function
    on that record, and what a handler does to its collaborators (toast,
    router, local storage, map SDK) is recorded in the same record. *)

From Stdlib Require Import ZArith QArith Qminmax Lqa String Ascii List Bool Lia.
From Stdlib Require Import Floats.PrimFloat.
From stdpp Require Import base option list gmap strings pretty.

(** ** The JavaScript host: exceptions and [Date] *)

Module JS.

Inductive Exn : Type :=
| RangeError (msg : string)
| MapError (msg : string).

Inductive result (A : Type) : Type :=
| Ok (a : A)
| Throw (e : Exn).
Arguments Ok {A} a.
Arguments Throw {A} e.

#[global] Instance result_ret : MRet result := @Ok.
#[global] Instance result_bind : MBind result :=
  λ A B f m, match m with Ok a => f a | Throw e => Throw e end.

Local Open Scope Z_scope.

(** The time value of a [Date] object is a number of milliseconds since
    the epoch, or NaN (an Invalid Date): [option Z]. *)
Definition Date : Type := option Z.

Definition msPerDay : Z := 86400000.
Definition maxTime : Z := 8640000000000000.

Definition TimeClip (t : Z) : Date :=
  if Z.abs t <=? maxTime then Some t else None.

(** What the code asks of the host's [Date]: parsing a string
    ([new Date(s)]), the local day of the month ([getDate]), setting it
    ([setDate], which may leave the representable range) and printing
    ([toISOString]).  The local time zone is the host's. *)
Class DateHost : Type := {
  Date_parse : string → Date;
  getDate : Z → Z;
  setDate : Z → Z → Date;
  toISOString : Z → string
}.

(** [d.toISOString()] throws a RangeError on an Invalid Date. *)
Definition Date_toISOString `{DateHost} (d : Date) : result string :=
  match d with
  | Some t => Ok (toISOString t)
  | None => Throw (RangeError "Invalid time value")
  end.

(** [d.setDate(d.getDate() + n)]: NaN stays NaN. *)
Definition Date_addDays `{DateHost} (d : Date) (n : Z) : Date :=
  t ← d; setDate t (getDate t + n).

(** [s.split('T')[0]]: the text before the first 'T'. *)
Fixpoint split_T_0 (s : string) : string :=
  match s with
  | EmptyString => EmptyString
  | String c s' => if Ascii.eqb c "T" then EmptyString else String c (split_T_0 s')
  end.

(** *** A host in the UTC time zone *)

(** Days since the epoch to proleptic Gregorian (year, month, day). *)
Definition civil_from_days (z : Z) : Z * Z * Z :=
  let z := z + 719468 in
  let era := z / 146097 in
  let doe := z - era * 146097 in
  let yoe := (doe - doe / 1460 + doe / 36524 - doe / 146096) / 365 in
  let doy := doe - (365 * yoe + yoe / 4 - yoe / 100) in
  let mp := (5 * doy + 2) / 153 in
  let d := doy - (153 * mp + 2) / 5 + 1 in
  let m := if mp <? 10 then mp + 3 else mp - 9 in
  let y := yoe + era * 400 in
  (if m <=? 2 then y + 1 else y, m, d).

Definition days_from_civil (y m d : Z) : Z :=
  let y := if m <=? 2 then y - 1 else y in
  let era := y / 400 in
  let yoe := y - era * 400 in
  let doy := (153 * (if 2 <? m then m - 3 else m + 9) + 2) / 5 + d - 1 in
  let doe := yoe * 365 + yoe / 4 - yoe / 100 + doy in
  era * 146097 + doe - 719468.

Definition isLeap (y : Z) : bool :=
  ((y mod 4 =? 0) && negb (y mod 100 =? 0)) || (y mod 400 =? 0).

Definition daysInMonth (y m : Z) : Z :=
  if m =? 2 then (if isLeap y then 29 else 28)
  else if (m =? 4) || (m =? 6) || (m =? 9) || (m =? 11) then 30 else 31.

Definition digit (n : Z) : ascii := ascii_of_nat (48 + Z.to_nat (n mod 10)).

(** [n] printed on exactly [width] decimal digits. *)
Fixpoint pad (width : nat) (n : Z) : string :=
  match width with
  | O => EmptyString
  | S w => pad w (n / 10) +:+ String (digit n) EmptyString
  end.

Definition utc_toISOString (t : Z) : string :=
  let '(y, m, d) := civil_from_days (t / msPerDay) in
  let r := t mod msPerDay in
  let year :=
    if (0 <=? y) && (y <=? 9999) then pad 4 y
    else (if 0 <=? y then "+" else "-") +:+ pad 6 (Z.abs y) in
  year +:+ "-" +:+ pad 2 m +:+ "-" +:+ pad 2 d +:+ "T" +:+
  pad 2 (r / 3600000) +:+ ":" +:+ pad 2 (r / 60000 mod 60) +:+ ":" +:+
  pad 2 (r / 1000 mod 60) +:+ "." +:+ pad 3 (r mod 1000) +:+ "Z".

Definition digit_val (c : ascii) : option Z :=
  let n := Z.of_nat (nat_of_ascii c) in
  if (48 <=? n) && (n <=? 57) then Some (n - 48) else None.

Fixpoint read_digits (width : nat) (acc : Z) (s : string) : option (Z * string) :=
  match width with
  | O => Some (acc, s)
  | S w =>
      match s with
      | String c s' => d ← digit_val c; read_digits w (10 * acc + d) s'
      | EmptyString => None
      end
  end.

Definition expect (c : ascii) (s : string) : option string :=
  match s with
  | String c' s' => if Ascii.eqb c c' then Some s' else None
  | EmptyString => None
  end.

Definition read_year (s : string) : option (Z * string) :=
  match s with
  | String "+" s' => read_digits 6 0 s'
  | String "-" s' => '(y, r) ← read_digits 6 0 s'; Some (- y, r)
  | _ => read_digits 4 0 s
  end.

Definition read_millis (s : string) : option (Z * string) :=
  match s with
  | String "." s' => read_digits 3 0 s'
  | _ => Some (0, s)
  end.

(** The date-time form [YYYY-MM-DDTHH:mm:ss(.sss)Z] (with the expanded
    years [+YYYYYY] and [-YYYYYY]); this host reads nothing else. *)
Definition utc_parse (s : string) : Date :=
  '(y, s) ← read_year s;
  s ← expect "-" s; '(m, s) ← read_digits 2 0 s;
  s ← expect "-" s; '(d, s) ← read_digits 2 0 s;
  s ← expect "T" s; '(hh, s) ← read_digits 2 0 s;
  s ← expect ":" s; '(mm, s) ← read_digits 2 0 s;
  s ← expect ":" s; '(ss, s) ← read_digits 2 0 s;
  '(ms, s) ← read_millis s;
  s ← expect "Z" s;
  if (String.length s =? 0)%nat && (1 <=? m) && (m <=? 12) && (1 <=? d)
     && (d <=? daysInMonth y m) && (hh <=? 23) && (mm <=? 59) && (ss <=? 59)
  then TimeClip (days_from_civil y m d * msPerDay
                 + hh * 3600000 + mm * 60000 + ss * 1000 + ms)
  else None.

Definition utc_getDate (t : Z) : Z := (civil_from_days (t / msPerDay)).2.

Definition utc_setDate (t n : Z) : Date :=
  let '(y, m, _) := civil_from_days (t / msPerDay) in
  TimeClip ((days_from_civil y m 1 + n - 1) * msPerDay + t mod msPerDay).

Definition utcHost : DateHost := {|
  Date_parse := utc_parse;
  getDate := utc_getDate;
  setDate := utc_setDate;
  toISOString := utc_toISOString
|}.

End JS.

Import JS.

(** ** A state monad with JavaScript exceptions

    A handler runs on the state [S]; what it changed before an exception
    stays changed, which is what [try]/[catch]/[finally] observes. *)

Definition Eff (S A : Type) : Type := S → result A * S.

#[global] Instance Eff_ret {S} : MRet (Eff S) := λ A a st, (Ok a, st).
#[global] Instance Eff_bind {S} : MBind (Eff S) :=
  λ A B f m st,
    match m st with
    | (Ok a, st') => f a st'
    | (Throw e, st') => (Throw e, st')
    end.

Definition get {S} : Eff S S := λ st, (Ok st, st).
Definition modify {S} (f : S → S) : Eff S unit := λ st, (Ok (), f st).
Definition liftR {S A} (r : result A) : Eff S A := λ st, (r, st).

(** [try { body } catch (error) { handler } finally { final }] *)
Definition try_catch_finally {S} (body : Eff S unit) (handler : Exn → Eff S unit)
    (final : Eff S unit) : Eff S unit :=
  λ st,
    match body st with
    | (Ok _, st') => final st'
    | (Throw e, st') =>
        match handler e st' with
        | (Ok _, st'') => final st''
        | (Throw e', st'') =>
            match final st'' with
            | (Ok _, st3) => (Throw e', st3)
            | r => r
            end
        end
    end.

(** Run a computation of a component [T] stored inside [S]. *)
Definition zoom {S T A} (proj : S → T) (inj : T → S → S) (m : Eff T A) : Eff S A :=
  λ st, let '(r, t) := m (proj st) in (r, inj t st).

#[global] Instance Q_eq_dec : EqDecision Q.
Proof. solve_decision. Defined.

(** ** The trip record shared by the two pages *)

Module Trip.

Inductive LocationType : Type := current | pickup | dropoff.

#[global] Instance LocationType_eq_dec : EqDecision LocationType.
Proof. solve_decision. Defined.

(** [interface Location] *)
Record Location : Type := {
  lat : Q;
  lng : Q;
  address : string;
  type : LocationType
}.

(** [interface TripData] *)
Record TripData : Type := {
  currentLocation : string;
  pickupLocation : string;
  dropoffLocation : string;
  cycleHours : Q;
  mapLocations : list Location;
  plannedAt : string
}.

End Trip.

(** ** The browser around a page: toasts, router, local storage

    [localStorage] holds JSON text; [JSON.stringify] followed by
    [JSON.parse] is the identity on a trip record (strings, finite numbers,
    arrays of plain objects), so a slot is modelled as holding the record. *)

Record Toast : Type := {
  title : string;
  description : string;
  variant : option string
}.

Record Browser : Type := {
  localStorage : gmap string Trip.TripData;
  toasts : list Toast;
  navigated : list string
}.

Definition Browser_toast (t : Toast) (b : Browser) : Browser :=
  {| localStorage := localStorage b; toasts := toasts b ++ [t];
     navigated := navigated b |}.

Definition Browser_navigate (path : string) (b : Browser) : Browser :=
  {| localStorage := localStorage b; toasts := toasts b;
     navigated := navigated b ++ [path] |}.

Definition Browser_setItem (key : string) (v : Trip.TripData) (b : Browser) : Browser :=
  {| localStorage := <[key := v]> (localStorage b); toasts := toasts b;
     navigated := navigated b |}.

(** ** src/pages/ReviewLogs.tsx *)

Module ReviewLogs.
Import Trip.

Inductive Status : Type := driving | onduty | sleeper | offduty.

#[global] Instance Status_eq_dec : EqDecision Status.
Proof. solve_decision. Defined.

(** [interface LogSegment] *)
Record LogSegment : Type := {
  startTime : string;
  endTime : string;
  status : Status;
  location : string;
  duration : Q
}.

(** [interface ELDLog] *)
Record ELDLog : Type := {
  id : string;
  date : string;
  drivingTime : Q;
  onDutyTime : Q;
  sleeperTime : Q;
  offDutyTime : Q;
  segments : list LogSegment
}.

(** The component's [useState] cells and the browser it runs in. *)
Record State : Type := {
  tripData : option TripData;
  eldLogs : list ELDLog;
  currentLogIndex : Z;
  isGeneratingPDF : bool;
  browser : Browser
}.

Definition initial (b : Browser) : State :=
  {| tripData := None; eldLogs := []; currentLogIndex := 0;
     isGeneratingPDF := false; browser := b |}.

Definition setTripData (d : option TripData) : Eff State unit :=
  modify (λ st, {| tripData := d; eldLogs := eldLogs st;
                   currentLogIndex := currentLogIndex st;
                   isGeneratingPDF := isGeneratingPDF st; browser := browser st |}).

Definition setEldLogs (logs : list ELDLog) : Eff State unit :=
  modify (λ st, {| tripData := tripData st; eldLogs := logs;
                   currentLogIndex := currentLogIndex st;
                   isGeneratingPDF := isGeneratingPDF st; browser := browser st |}).

Definition withBrowser (f : Browser → Browser) : Eff State unit :=
  modify (λ st, {| tripData := tripData st; eldLogs := eldLogs st;
                   currentLogIndex := currentLogIndex st;
                   isGeneratingPDF := isGeneratingPDF st; browser := f (browser st) |}).

Definition toast (t : Toast) : Eff State unit := withBrowser (Browser_toast t).
Definition navigate (path : string) : Eff State unit := withBrowser (Browser_navigate path).
Definition localStorage_getItem (key : string) : Eff State (option TripData) :=
  st ← get; mret (localStorage (browser st) !! key).

Section Generator.
Context `{DateHost}.

(** The array literal [segments] of one iteration (lines 84-120). *)
Definition segments_of (data : TripData) (day : Z) : list LogSegment :=
  [ {| startTime := "06:00"; endTime := "07:00"; status := onduty;
       location := if (day =? 0)%Z then currentLocation data else "Rest Area Mile 45";
       duration := 1 |};
    {| startTime := "07:00"; endTime := "12:00"; status := driving;
       location := if (day =? 1)%Z then pickupLocation data else "Highway I-95";
       duration := 5 |};
    {| startTime := "12:00"; endTime := "13:00"; status := offduty;
       location := "Truck Stop & Fuel";
       duration := 1 |};
    {| startTime := "13:00"; endTime := "18:00"; status := driving;
       location := if (day =? 2)%Z then dropoffLocation data else "Highway I-75";
       duration := 5 |};
    {| startTime := "18:00"; endTime := "06:00"; status := sleeper;
       location := "Authorized Parking Area";
       duration := 12 |} ].

(** One iteration of the loop: the log pushed for [day]. *)
Definition logOfDay (data : TripData) (startDate : Date) (day : Z) : result ELDLog :=
  let date := Date_addDays startDate day in
  let segments := segments_of data day in
  iso ← Date_toISOString date;
  mret {| id := "log-" +:+ pretty (day + 1)%Z;
          date := split_T_0 iso;
          drivingTime := 10;
          onDutyTime := 1;
          sleeperTime := 12;
          offDutyTime := 1;
          segments := segments |}.

(** [for (let day = lo; day < lo + n; day++) logs.push(body(day))] *)
Fixpoint forDays (n : nat) (day : Z) (body : Z → result ELDLog)
    (logs : list ELDLog) : result (list ELDLog) :=
  match n with
  | O => mret logs
  | S n' => log ← body day; forDays n' (day + 1)%Z body (logs ++ [log])
  end.

Definition generateELDLogs (data : TripData) : Eff State unit :=
  let startDate := Date_parse (plannedAt data) in
  logs ← liftR (forDays 3 0 (logOfDay data startDate) []);
  setEldLogs logs.

(** The mount effect (lines 56-72), with the generator it calls as a
    parameter. *)
Definition useEffect_with (generate : TripData → Eff State unit) : Eff State unit :=
  stored ← localStorage_getItem "currentTrip";
  match stored with
  | Some data => setTripData (Some data);; generate data
  | None =>
      toast {| title := "No Trip Data";
               description := "Please plan a trip first to view ELD logs.";
               variant := Some "destructive" |};;
      navigate "/plan"
  end.

Definition useEffect : Eff State unit := useEffect_with generateELDLogs.

End Generator.

(** Sum of the durations of the segments with a given status, and of all. *)
Definition hoursOf (s : Status) (segs : list LogSegment) : Q :=
  foldr Qplus 0%Q (duration <$> filter (λ seg, status seg = s) segs).

Definition totalHours (segs : list LogSegment) : Q :=
  foldr Qplus 0%Q (duration <$> segs).

(** The three logs of a run that succeeds, up to their dates. *)
Definition logsFor (data : TripData) (d0 d1 d2 : string) : list ELDLog :=
  [ {| id := "log-1"; date := d0;
       drivingTime := 10; onDutyTime := 1; sleeperTime := 12; offDutyTime := 1;
       segments := segments_of data 0 |};
    {| id := "log-2"; date := d1;
       drivingTime := 10; onDutyTime := 1; sleeperTime := 12; offDutyTime := 1;
       segments := segments_of data 1 |};
    {| id := "log-3"; date := d2;
       drivingTime := 10; onDutyTime := 1; sleeperTime := 12; offDutyTime := 1;
       segments := segments_of data 2 |} ].

(** The four totals of a log are the sums of its segments by status. *)
Definition totalsMatchSegments (log : ELDLog) : Prop :=
  (drivingTime log == hoursOf driving (segments log) ∧
   onDutyTime log == hoursOf onduty (segments log) ∧
   sleeperTime log == hoursOf sleeper (segments log) ∧
   offDutyTime log == hoursOf offduty (segments log))%Q.

(** The record's date is one the generator can work with: it parses, and
    the three days starting there are representable. *)
Definition plannedAt_ok `{DateHost} (data : TripData) : Prop :=
  ∃ t, Date_parse (plannedAt data) = Some t ∧
       ∀ day, (0 ≤ day < 3)%Z → is_Some (setDate t (getDate t + day)).

End ReviewLogs.

(** ** src/components/forms/CycleHoursSlider.tsx *)

Module CycleHoursSlider.
Local Open Scope Q_scope.

(** The default of the [maxHours] prop. *)
Definition maxHours_default : Q := 70.

(** [getStatusColor] (lines 25-30), with the props it reads as arguments. *)
Definition getStatusColor (value maxHours : Q) : string :=
  let percentage := (value / maxHours) * 100 in
  if Qle_bool 90 percentage then "text-destructive"
  else if Qle_bool 75 percentage then "text-warning"
  else "text-success".



Definition getRemainingHours (value maxHours : Q) : Q :=
  Qmax 0 (maxHours - value).

(** The class of the progress bar (lines 92-93). *)
Definition barColor (value maxHours : Q) : string :=
  if Qle_bool (maxHours * 0.9) value then "bg-destructive"
  else if Qle_bool (maxHours * 0.75) value then "bg-warning"
  else "bg-success".

(** The two advisory blocks (lines 106 and 114): whether each is rendered. *)
Definition criticalAdvisoryShown (value maxHours : Q) : bool :=
  Qle_bool (maxHours * 0.9) value.

Definition warningAdvisoryShown (value maxHours : Q) : bool :=
  Qle_bool (maxHours * 0.75) value && negb (Qle_bool (maxHours * 0.9) value).

(** The same tests in IEEE 754 binary64, the arithmetic a JavaScript
    engine runs them in. *)
Definition getStatusColor_binary64 (value maxHours : PrimFloat.float) : string :=
  let percentage := PrimFloat.mul (PrimFloat.div value maxHours) 100%float in
  if PrimFloat.leb 90%float percentage then "text-destructive"
  else if PrimFloat.leb 75%float percentage then "text-warning"
  else "text-success".

Definition barColor_binary64 (value maxHours : PrimFloat.float) : string :=
  if PrimFloat.leb (PrimFloat.mul maxHours 0x1.ccccccccccccdp-1%float) value
  then "bg-destructive"
  else if PrimFloat.leb (PrimFloat.mul maxHours 0.75%float) value then "bg-warning"
  else "bg-success".

(** The values the slider can hold: [min = 0], [step = 0.5], so [k] steps
    give [k / 2], in both number models. *)
Definition sliderValue (k : nat) : Q := Z.of_nat k # 2.

Fixpoint sliderValue_binary64 (k : nat) : PrimFloat.float :=
  match k with
  | O => 0%float
  | S k' => PrimFloat.add (sliderValue_binary64 k') 0.5%float
  end.

End CycleHoursSlider.

(** ** The map context provider ([MapProvider]: initMap, addMarker,
       clearMarkers, drawRoute, fitMapToBounds) *)

Module MapContext.
Import Trip.

Definition LngLat : Type := Q * Q.

Record Marker : Type := {
  color : string;
  lngLat : LngLat
}.

#[global] Instance Marker_eq_dec : EqDecision Marker.
Proof. solve_decision. Defined.

(** The line layer [drawRoute] adds. *)
Record Layer : Type := {
  layer_id : string;
  layer_type : string;
  layer_source : string;
  line_color : string;
  line_width : Q;
  line_opacity : Q
}.

(** The map SDK's object, as far as the provider uses it: GeoJSON line
    sources by id, layers, the markers attached to the map, and the points
    of the last [fitBounds]. *)
Record Map : Type := {
  sources : gmap string (list LngLat);
  layers : list Layer;
  attached : list Marker;
  fitted : option (list LngLat)
}.

(** [new Map({ container, style: 'streets', center, zoom: 9 })] *)
Definition Map_new : Map :=
  {| sources := ∅; layers := []; attached := []; fitted := None |}.

Definition Map_getLayer (id : string) (m : Map) : bool :=
  bool_decide (id ∈ layer_id <$> layers m).

(** The SDK reports an error when a source or layer id is added twice or
    removed while absent. *)
Definition Map_addSource (id : string) (coords : list LngLat) (m : Map) : result Map :=
  match sources m !! id with
  | Some _ => Throw (MapError ("Source already exists: " +:+ id))
  | None => Ok {| sources := <[id := coords]> (sources m); layers := layers m;
                  attached := attached m; fitted := fitted m |}
  end.

Definition Map_addLayer (l : Layer) (m : Map) : result Map :=
  if Map_getLayer (layer_id l) m
  then Throw (MapError ("Layer already exists: " +:+ layer_id l))
  else match sources m !! layer_source l with
       | None => Throw (MapError ("Source not found: " +:+ layer_source l))
       | Some _ => Ok {| sources := sources m; layers := layers m ++ [l];
                         attached := attached m; fitted := fitted m |}
       end.

Definition Map_removeLayer (id : string) (m : Map) : result Map :=
  if Map_getLayer id m
  then Ok {| sources := sources m;
             layers := filter (λ l, layer_id l ≠ id) (layers m);
             attached := attached m; fitted := fitted m |}
  else Throw (MapError ("Cannot remove non-existing layer: " +:+ id)).

Definition Map_removeSource (id : string) (m : Map) : result Map :=
  match sources m !! id with
  | None => Throw (MapError ("There is no source with this ID: " +:+ id))
  | Some _ =>
      if bool_decide (id ∈ layer_source <$> layers m)
      then Throw (MapError ("Source is in use by a layer: " +:+ id))
      else Ok {| sources := delete id (sources m); layers := layers m;
                 attached := attached m; fitted := fitted m |}
  end.

(** [marker.addTo(map)] *)
Definition Map_attach (mk : Marker) (m : Map) : Map :=
  {| sources := sources m; layers := layers m;
     attached := attached m ++ [mk]; fitted := fitted m |}.

(** [map.fitBounds(bounds, { padding: 100, maxZoom: 15 })] *)
Definition Map_fitBounds (pts : list LngLat) (m : Map) : Map :=
  {| sources := sources m; layers := layers m;
     attached := attached m; fitted := Some pts |}.

(** The provider's refs and state. *)
Record State : Type := {
  mapInstance : option Map;
  markers : list Marker;
  isMapInitialized : bool
}.

Definition initial : State :=
  {| mapInstance := None; markers := []; isMapInitialized := false |}.

Definition setMap (m : Map) (st : State) : State :=
  {| mapInstance := Some m; markers := markers st;
     isMapInitialized := isMapInitialized st |}.

(** A call [mapInstance.current.op(...)] on a map known to be there. *)
Definition onMap (op : Map → result Map) : Eff State unit :=
  λ st,
    match mapInstance st with
    | None => (Ok (), st)
    | Some m =>
        match op m with
        | Ok m' => (Ok (), setMap m' st)
        | Throw e => (Throw e, st)
        end
    end.

Definition getMarkerColor (type : LocationType) : string :=
  match type with
  | current => "#28a745"
  | pickup => "#ffc107"
  | dropoff => "#007bff"
  end.

(** [initMap(container)]; [container] tells whether the element exists. *)
Definition initMap (container : bool) : Eff State unit :=
  st ← get;
  if bool_decide (is_Some (mapInstance st)) || negb container then mret ()
  else modify (λ st, {| mapInstance := Some Map_new; markers := markers st;
                        isMapInitialized := true |}).

Definition fitMapToBounds : Eff State unit :=
  st ← get;
  match mapInstance st, markers st with
  | None, _ | _, [] => mret ()
  | Some _, mks => onMap (λ m, Ok (Map_fitBounds (lngLat <$> mks) m))
  end.

(** [addMarker(location)] (lines 45-55). *)
Definition addMarker (location : Location) : Eff State unit :=
  st ← get;
  match mapInstance st with
  | None => mret ()
  | Some _ =>
      let color := getMarkerColor (type location) in
      let marker := {| color := color; lngLat := (lng location, lat location) |} in
      onMap (λ m, Ok (Map_attach marker m));;
      modify (λ st, {| mapInstance := mapInstance st;
                       markers := markers st ++ [marker];
                       isMapInitialized := isMapInitialized st |});;
      fitMapToBounds
  end.

(** [clearMarkers()] (lines 57-60): every marker of the ref is removed
    from the map, then the ref is emptied. *)
Definition clearMarkers : Eff State unit :=
  st ← get;
  onMap (λ m, Ok {| sources := sources m; layers := layers m;
                    attached := list_difference (attached m) (markers st);
                    fitted := fitted m |});;
  modify (λ st, {| mapInstance := mapInstance st; markers := [];
                   isMapInitialized := isMapInitialized st |}).

Definition sourceId : string := "route".
Definition layerId : string := "route-layer".

(** [drawRoute(locations)] (lines 62-101). *)
Definition drawRoute (locations : list Location) : Eff State unit :=
  st ← get;
  match mapInstance st with
  | None => mret ()
  | Some m =>
      if (length locations <? 2)%nat then mret ()
      else
        (if Map_getLayer layerId m
         then onMap (Map_removeLayer layerId);; onMap (Map_removeSource sourceId)
         else mret ());;
        onMap (Map_addSource sourceId ((λ loc, (lng loc, lat loc)) <$> locations));;
        onMap (Map_addLayer {| layer_id := layerId; layer_type := "line";
                               layer_source := sourceId; line_color := "#007bff";
                               line_width := 5; line_opacity := 0.8 |});;
        fitMapToBounds
  end.

(** The layer of the route, as [drawRoute] adds it. *)
Definition routeLayer : Layer :=
  {| layer_id := layerId; layer_type := "line"; layer_source := sourceId;
     line_color := "#007bff"; line_width := 5; line_opacity := 0.8 |}.

(** The route on the map is in one piece: at most one layer, which is the
    route's and draws the route's source, and the source is there exactly
    when the layer is. *)
Definition routeConsistent (m : Map) : Prop :=
  (layers m = [] ∧ sources m !! sourceId = None) ∨
  (layers m = [routeLayer] ∧ is_Some (sources m !! sourceId)).

Definition wellFormed (st : State) : Prop :=
  match mapInstance st with
  | None => markers st = []
  | Some m => routeConsistent m ∧ attached m = markers st
  end.

(** The markers of a given role, recognised by their colour. *)
Definition markersOf (type : LocationType) (mks : list Marker) : list Marker :=
  filter (λ mk, color mk = getMarkerColor type) mks.

End MapContext.

(** ** src/pages/PlanTrip.tsx *)

Module PlanTrip.
Import Trip.

(** What is waiting on the event loop: the rest of [handlePlanTrip] after
    its [await] (with the values its closure captured), or the delayed
    [navigate]. *)
Inductive Task : Type :=
| PlanTripResume (currentLocation pickupLocation dropoffLocation : string)
    (cycleHours : Q) (mapLocations : list Location)
| NavigateTask (path : string).

Record Timer : Type := {
  due : Z;
  task : Task
}.

(** The component's [useState] cells, the map provider it uses, the
    browser, the clock (milliseconds since the epoch) and pending timers. *)
Record State : Type := {
  currentLocation : string;
  pickupLocation : string;
  dropoffLocation : string;
  cycleHours : Q;
  mapLocations : list Location;
  isCalculating : bool;
  map : MapContext.State;
  browser : Browser;
  clock : Z;
  timers : list Timer
}.

Definition initial (b : Browser) (now : Z) : State :=
  {| currentLocation := ""; pickupLocation := ""; dropoffLocation := "";
     cycleHours := 35.5; mapLocations := []; isCalculating := false;
     map := MapContext.initial; browser := b; clock := now; timers := [] |}.

Definition setCurrentLocation (v : string) : Eff State unit :=
  modify (λ st, {| currentLocation := v; pickupLocation := pickupLocation st;
    dropoffLocation := dropoffLocation st; cycleHours := cycleHours st;
    mapLocations := mapLocations st; isCalculating := isCalculating st;
    map := map st; browser := browser st; clock := clock st; timers := timers st |}).

Definition setPickupLocation (v : string) : Eff State unit :=
  modify (λ st, {| currentLocation := currentLocation st; pickupLocation := v;
    dropoffLocation := dropoffLocation st; cycleHours := cycleHours st;
    mapLocations := mapLocations st; isCalculating := isCalculating st;
    map := map st; browser := browser st; clock := clock st; timers := timers st |}).

Definition setDropoffLocation (v : string) : Eff State unit :=
  modify (λ st, {| currentLocation := currentLocation st;
    pickupLocation := pickupLocation st; dropoffLocation := v;
    cycleHours := cycleHours st;
    mapLocations := mapLocations st; isCalculating := isCalculating st;
    map := map st; browser := browser st; clock := clock st; timers := timers st |}).

Definition setCycleHours (v : Q) : Eff State unit :=
  modify (λ st, {| currentLocation := currentLocation st;
    pickupLocation := pickupLocation st; dropoffLocation := dropoffLocation st;
    cycleHours := v;
    mapLocations := mapLocations st; isCalculating := isCalculating st;
    map := map st; browser := browser st; clock := clock st; timers := timers st |}).

Definition setMapLocations (v : list Location) : Eff State unit :=
  modify (λ st, {| currentLocation := currentLocation st;
    pickupLocation := pickupLocation st; dropoffLocation := dropoffLocation st;
    cycleHours := cycleHours st;
    mapLocations := v; isCalculating := isCalculating st;
    map := map st; browser := browser st; clock := clock st; timers := timers st |}).

Definition setIsCalculating (v : bool) : Eff State unit :=
  modify (λ st, {| currentLocation := currentLocation st;
    pickupLocation := pickupLocation st; dropoffLocation := dropoffLocation st;
    cycleHours := cycleHours st;
    mapLocations := mapLocations st; isCalculating := v;
    map := map st; browser := browser st; clock := clock st; timers := timers st |}).

Definition setMap (v : MapContext.State) (st : State) : State :=
  {| currentLocation := currentLocation st;
     pickupLocation := pickupLocation st; dropoffLocation := dropoffLocation st;
     cycleHours := cycleHours st;
     mapLocations := mapLocations st; isCalculating := isCalculating st;
     map := v; browser := browser st; clock := clock st; timers := timers st |}.

Definition withBrowser (f : Browser → Browser) : Eff State unit :=
  modify (λ st, {| currentLocation := currentLocation st;
    pickupLocation := pickupLocation st; dropoffLocation := dropoffLocation st;
    cycleHours := cycleHours st;
    mapLocations := mapLocations st; isCalculating := isCalculating st;
    map := map st; browser := f (browser st); clock := clock st;
    timers := timers st |}).

Definition setClock (v : Z) : Eff State unit :=
  modify (λ st, {| currentLocation := currentLocation st;
    pickupLocation := pickupLocation st; dropoffLocation := dropoffLocation st;
    cycleHours := cycleHours st;
    mapLocations := mapLocations st; isCalculating := isCalculating st;
    map := map st; browser := browser st; clock := v; timers := timers st |}).

Definition setTimers (v : list Timer) : Eff State unit :=
  modify (λ st, {| currentLocation := currentLocation st;
    pickupLocation := pickupLocation st; dropoffLocation := dropoffLocation st;
    cycleHours := cycleHours st;
    mapLocations := mapLocations st; isCalculating := isCalculating st;
    map := map st; browser := browser st; clock := clock st; timers := v |}).

(** The functions of [useMap()] and [useToast()], and the browser's own. *)
Definition addMarker (location : Location) : Eff State unit :=
  zoom map setMap (MapContext.addMarker location).
Definition drawRoute (locations : list Location) : Eff State unit :=
  zoom map setMap (MapContext.drawRoute locations).
Definition initMap (container : bool) : Eff State unit :=
  zoom map setMap (MapContext.initMap container).
Definition toast (t : Toast) : Eff State unit := withBrowser (Browser_toast t).
Definition navigate (path : string) : Eff State unit := withBrowser (Browser_navigate path).
Definition localStorage_setItem (key : string) (v : TripData) : Eff State unit :=
  withBrowser (Browser_setItem key v).

(** [setTimeout(task, delay)]: due [delay] milliseconds from now. *)
Definition setTimeout (t : Task) (delay : Z) : Eff State unit :=
  st ← get; setTimers (timers st ++ [{| due := (clock st + delay)%Z; task := t |}]).

(** [new Date()] *)
Definition newDate : Eff State Date :=
  st ← get; mret (TimeClip (clock st)).

(** A string in a condition: only the empty string is falsy. *)
Definition truthy (s : string) : bool :=
  match s with
  | EmptyString => false
  | String _ _ => true
  end.

(** [handleLocationChange(type, address, coordinates)] (lines 31-60);
    [coordinates] is the pair (lat, lng) when given. *)
Definition handleLocationChange (ty : LocationType) (address : string)
    (coordinates : option (Q * Q)) : Eff State unit :=
  match ty with
  | current => setCurrentLocation address
  | pickup => setPickupLocation address
  | dropoff => setDropoffLocation address
  end;;
  match coordinates with
  | Some (la, ln) =>
      let newLocation := {| lat := la; lng := ln; address := address; type := ty |} in
      addMarker newLocation;;
      st ← get;
      let prev := mapLocations st in
      let filtered := filter (λ loc, type loc ≠ ty) prev in
      let updatedLocations := filtered ++ [newLocation] in
      (if (2 <=? length updatedLocations)%nat then drawRoute updatedLocations
       else mret ());;
      setMapLocations updatedLocations
  | None => mret ()
  end.

(** [handlePlanTrip] up to its [await] (lines 69-83). *)
Definition handlePlanTrip : Eff State unit :=
  st ← get;
  if negb (truthy (currentLocation st)) || negb (truthy (pickupLocation st))
     || negb (truthy (dropoffLocation st))
  then
    toast {| title := "Missing Information";
             description := "Please fill in all location fields before planning the trip.";
             variant := Some "destructive" |}
  else
    setIsCalculating true;;
    setTimeout (PlanTripResume (currentLocation st) (pickupLocation st)
                  (dropoffLocation st) (cycleHours st) (mapLocations st)) 2000.

Section Resume.
Context `{DateHost}.

(** [handlePlanTrip] after its [await] (lines 85-114), on the values its
    closure captured. *)
Definition handlePlanTrip_resume (currentLocation pickupLocation dropoffLocation : string)
    (cycleHours : Q) (mapLocations : list Location) : Eff State unit :=
  try_catch_finally
    (toast {| title := "Trip Planned Successfully";
              description :=
                "ELD logs and route have been calculated. Redirecting to review...";
              variant := None |};;
     now ← newDate;
     iso ← liftR (Date_toISOString now);
     let tripData :=
       {| Trip.currentLocation := currentLocation;
          Trip.pickupLocation := pickupLocation;
          Trip.dropoffLocation := dropoffLocation;
          Trip.cycleHours := cycleHours;
          Trip.mapLocations := mapLocations;
          Trip.plannedAt := iso |} in
     localStorage_setItem "currentTrip" tripData;;
     setTimeout (NavigateTask "/logs") 1000)
    (λ error,
       toast {| title := "Planning Error";
                description :=
                  "Failed to calculate trip. Please check your inputs and try again.";
                variant := Some "destructive" |})
    (setIsCalculating false).

Definition runTask (t : Task) : Eff State unit :=
  match t with
  | PlanTripResume c p d h locs => handlePlanTrip_resume c p d h locs
  | NavigateTask path => navigate path
  end.

(** The [onClick] of "Clear All Fields" (lines 209-215). *)
Definition clearAllFields : Eff State unit :=
  setCurrentLocation "";;
  setPickupLocation "";;
  setDropoffLocation "";;
  setCycleHours 0;;
  setMapLocations [].

(** What can happen to the page.  Time only moves forward ([Elapse]), and
    a timer fires no earlier than it is due. *)
Inductive Event : Type :=
| MapMounted (container : bool)
| LocationChange (ty : LocationType) (address : string) (coordinates : option (Q * Q))
| CycleHoursChange (v : Q)
| PlanTripClicked
| ClearAllClicked
| Elapse (ms : Z)
| TimerFires (i : nat).

Definition step (e : Event) : Eff State unit :=
  match e with
  | MapMounted container => initMap container
  | LocationChange ty address coordinates => handleLocationChange ty address coordinates
  | CycleHoursChange v => setCycleHours v
  | PlanTripClicked =>
      st ← get; if isCalculating st then mret () else handlePlanTrip
  | ClearAllClicked => clearAllFields
  | Elapse ms => st ← get; setClock (clock st + Z.max 0 ms)%Z
  | TimerFires i =>
      st ← get;
      match timers st !! i with
      | Some tm =>
          if (due tm <=? clock st)%Z
          then setTimers (delete i (timers st));; runTask (task tm)
          else mret ()
      | None => mret ()
      end
  end.

(** An exception in a handler is reported and the page goes on. *)
Definition runEvents (evs : list Event) (st : State) : State :=
  foldl (λ st e, (step e st).2) st evs.

End Resume.

(** At most one location of each role. *)
Definition onePerRole (locs : list Location) : Prop :=
  NoDup (type <$> locs).

End PlanTrip.

(** ** src/components/forms/LocationInput.tsx *)

Module LocationInput.

(** A feature of the geocoding client; [center] is [lng, lat]. *)
Record GeocodingResult : Type := {
  place_name : string;
  center : Q * Q
}.

(** A call of [geocoding.forward] whose promise is still pending; [seq]
    counts the calls in the order they were issued. *)
Record Request : Type := {
  seq : nat;
  query : string
}.

Inductive Response : Type :=
| Features (features : list GeocodingResult)
| Failure.

(** The [value] prop, the cell and pending timeout of [useDebounce], the
    component's cells, and the requests in flight. *)
Record State : Type := {
  value : string;
  debouncedValue : string;
  handler : option string;
  suggestions : list GeocodingResult;
  showSuggestions : bool;
  isLoading : bool;
  isValid : bool;
  inFlight : list Request;
  issued : nat
}.

(** The effect on [debouncedSearchTerm] (lines 54-78), up to the [await]. *)
Definition useEffect (st : State) : State :=
  let debouncedSearchTerm := debouncedValue st in
  if (2 <? String.length debouncedSearchTerm)%nat then
    {| value := value st; debouncedValue := debouncedValue st; handler := handler st;
       suggestions := suggestions st; showSuggestions := showSuggestions st;
       isLoading := true;
       isValid := (10 <? String.length (value st))%nat;
       inFlight := inFlight st ++ [{| seq := issued st; query := debouncedSearchTerm |}];
       issued := S (issued st) |}
  else
    {| value := value st; debouncedValue := debouncedValue st; handler := handler st;
       suggestions := []; showSuggestions := false;
       isLoading := isLoading st;
       isValid := (10 <? String.length (value st))%nat;
       inFlight := inFlight st; issued := issued st |}.

(** The component after its first render: the first timeout of
    [useDebounce] is pending and the effect has run once. *)
Definition mounted (v : string) : State :=
  useEffect
    {| value := v; debouncedValue := v; handler := Some v; suggestions := [];
       showSuggestions := false; isLoading := false; isValid := false;
       inFlight := []; issued := 0 |}.

(** The parent passes a new [value]: [useDebounce] clears its timeout and
    sets a new one (lines 15-23). *)
Definition setValue (v : string) (st : State) : State :=
  if decide (v = value st) then st
  else
    {| value := v; debouncedValue := debouncedValue st; handler := Some v;
       suggestions := suggestions st; showSuggestions := showSuggestions st;
       isLoading := isLoading st; isValid := isValid st;
       inFlight := inFlight st; issued := issued st |}.

(** The timeout of [useDebounce] fires: [setDebouncedValue(value)], and the
    effect runs when the debounced value changed. *)
Definition timeout (st : State) : State :=
  match handler st with
  | None => st
  | Some v =>
      let st' :=
        {| value := value st; debouncedValue := v; handler := None;
           suggestions := suggestions st; showSuggestions := showSuggestions st;
           isLoading := isLoading st; isValid := isValid st;
           inFlight := inFlight st; issued := issued st |} in
      if decide (v = debouncedValue st) then st' else useEffect st'
  end.

(** The rest of [fetchSuggestions] after its [await] (lines 63-70), for
    the request numbered [n]. *)
Definition fetchSuggestions_resume (n : nat) (r : Response) (st : State) : State :=
  if bool_decide (n ∈ seq <$> inFlight st) then
    let pending := filter (λ rq, seq rq ≠ n) (inFlight st) in
    match r with
    | Features fs =>
        {| value := value st; debouncedValue := debouncedValue st; handler := handler st;
           suggestions := fs; showSuggestions := true;
           isLoading := false; isValid := isValid st;
           inFlight := pending; issued := issued st |}
    | Failure =>
        {| value := value st; debouncedValue := debouncedValue st; handler := handler st;
           suggestions := []; showSuggestions := showSuggestions st;
           isLoading := false; isValid := isValid st;
           inFlight := pending; issued := issued st |}
    end
  else st.

(** [handleSuggestionClick] (lines 80-85): the parent stores the address. *)
Definition handleSuggestionClick (s : GeocodingResult) (st : State) : State :=
  let st := setValue (place_name s) st in
  {| value := value st; debouncedValue := debouncedValue st; handler := handler st;
     suggestions := suggestions st; showSuggestions := false;
     isLoading := isLoading st; isValid := true;
     inFlight := inFlight st; issued := issued st |}.

(** [clearInput] (lines 87-91). *)
Definition clearInput (st : State) : State :=
  let st := setValue "" st in
  {| value := value st; debouncedValue := debouncedValue st; handler := handler st;
     suggestions := suggestions st; showSuggestions := showSuggestions st;
     isLoading := isLoading st; isValid := false;
     inFlight := inFlight st; issued := issued st |}.

Inductive Event : Type :=
| Typed (v : string)
| Timeout
| Responded (n : nat) (r : Response)
| SuggestionClicked (s : GeocodingResult)
| Cleared.

Definition step (e : Event) (st : State) : State :=
  match e with
  | Typed v => setValue v st
  | Timeout => timeout st
  | Responded n r => fetchSuggestions_resume n r st
  | SuggestionClicked s => handleSuggestionClick s st
  | Cleared => clearInput st
  end.

Definition run (evs : list Event) (st : State) : State :=
  foldl (λ st e, step e st) st evs.

(** A request in flight is superseded when a later one has been issued. *)
Definition superseded (n : nat) (st : State) : Prop :=
  n ∈ seq <$> inFlight st ∧ (S n < issued st)%nat.

(** The spec's requirement on a state: the response to a superseded
    request leaves the suggestions as they are. *)
Definition staleDiscarded (st : State) : Prop :=
  ∀ n r, superseded n st →
    suggestions (fetchSuggestions_resume n r st) = suggestions st.

End LocationInput.

(** ** src/pages/ReviewLogs.tsx: the actions of the page *)

Module ReviewLogsPage.
Import Trip ReviewLogs.

Definition setCurrentLogIndex (i : Z) : Eff State unit :=
  modify (λ st, {| tripData := tripData st; eldLogs := eldLogs st;
                   currentLogIndex := i;
                   isGeneratingPDF := isGeneratingPDF st; browser := browser st |}).

Definition setIsGeneratingPDF (v : bool) : Eff State unit :=
  modify (λ st, {| tripData := tripData st; eldLogs := eldLogs st;
                   currentLogIndex := currentLogIndex st;
                   isGeneratingPDF := v; browser := browser st |}).

(** [eldLogs[currentLogIndex]] (line 136): undefined outside the array. *)
Definition currentLog (st : State) : option ELDLog :=
  if (currentLogIndex st <? 0)%Z then None
  else eldLogs st !! Z.to_nat (currentLogIndex st).

(** The page shows "Loading ELD logs..." instead of its buttons when
    [!tripData || eldLogs.length === 0] (line 182). *)
Definition rendered (st : State) : bool :=
  match tripData st, eldLogs st with
  | Some _, _ :: _ => true
  | _, _ => false
  end.

(** The [onClick] of "Previous Day" and of "Next Day" (lines 217, 240). *)
Definition previousDay : Eff State unit :=
  st ← get; setCurrentLogIndex (Z.max 0 (currentLogIndex st - 1)).

Definition nextDay : Eff State unit :=
  st ← get;
  setCurrentLogIndex
    (Z.min (Z.of_nat (length (eldLogs st)) - 1) (currentLogIndex st + 1)).

(** Their [disabled] attributes (lines 218, 241). *)
Definition previousDisabled (st : State) : bool := (currentLogIndex st =? 0)%Z.
Definition nextDisabled (st : State) : bool :=
  (currentLogIndex st =? Z.of_nat (length (eldLogs st)) - 1)%Z.

(** [handleGeneratePDF] (lines 138-149) up to its [await], and after it
    ([try] ... [finally], nothing in the body throws). *)
Definition handleGeneratePDF : Eff State unit := setIsGeneratingPDF true.

Definition handleGeneratePDF_resume : Eff State unit :=
  try_catch_finally
    (toast {| title := "PDF Generated";
              description := "ELD log sheets have been prepared for download.";
              variant := None |})
    (λ error, liftR (Throw error))
    (setIsGeneratingPDF false).

(** [handleShareLogs] (lines 151-156) and [handleEditTrip] (158-160). *)
Definition handleShareLogs : Eff State unit :=
  toast {| title := "Share Feature";
           description :=
             "Log sharing functionality would integrate with fleet management systems.";
           variant := None |}.

Definition handleEditTrip : Eff State unit := navigate "/plan".

(** [getStatusColor] and [getStatusLabel] (lines 162-180), on the status
    as the string it is at run time. *)
Definition statusName (s : Status) : string :=
  match s with
  | driving => "driving"
  | onduty => "onduty"
  | sleeper => "sleeper"
  | offduty => "offduty"
  end.

Definition getStatusColor (status : string) : string :=
  if String.eqb status "driving" then "bg-eld-log-driving"
  else if String.eqb status "onduty" then "bg-eld-log-onduty"
  else if String.eqb status "sleeper" then "bg-eld-log-sleeper"
  else if String.eqb status "offduty" then "bg-eld-log-offduty"
  else "bg-muted".

Definition getStatusLabel (status : string) : string :=
  if String.eqb status "driving" then "Driving"
  else if String.eqb status "onduty" then "On Duty"
  else if String.eqb status "sleeper" then "Sleeper Berth"
  else if String.eqb status "offduty" then "Off Duty"
  else status.

(** The page with the timers of its pending "print" waits. *)
Record Page : Type := {
  state : State;
  pdfTimers : nat
}.

Inductive Event : Type :=
| PreviousDayClicked
| NextDayClicked
| PrintClicked
| PrintTimerFires
| ShareClicked
| EditTripClicked.

Definition onState (m : Eff State unit) (p : Page) : Page :=
  {| state := (m (state p)).2; pdfTimers := pdfTimers p |}.

(** A click reaches its handler only when the button is rendered and not
    disabled; the timer of a print fires whatever is rendered. *)
Definition step (e : Event) (p : Page) : Page :=
  match e with
  | PreviousDayClicked =>
      if rendered (state p) && negb (previousDisabled (state p))
      then onState previousDay p else p
  | NextDayClicked =>
      if rendered (state p) && negb (nextDisabled (state p))
      then onState nextDay p else p
  | PrintClicked =>
      if rendered (state p) && negb (isGeneratingPDF (state p))
      then {| state := (handleGeneratePDF (state p)).2; pdfTimers := S (pdfTimers p) |}
      else p
  | PrintTimerFires =>
      match pdfTimers p with
      | O => p
      | S n => {| state := (handleGeneratePDF_resume (state p)).2; pdfTimers := n |}
      end
  | ShareClicked => if rendered (state p) then onState handleShareLogs p else p
  | EditTripClicked => if rendered (state p) then onState handleEditTrip p else p
  end.

Definition run (evs : list Event) (p : Page) : Page :=
  foldl (λ p e, step e p) p evs.

(** The day index is a position of the log list. *)
Definition indexInRange (st : State) : Prop :=
  (0 ≤ currentLogIndex st < Z.of_nat (length (eldLogs st)))%Z.

(** The print flag is set exactly while one print timer is pending. *)
Definition printPending (p : Page) : Prop :=
  (isGeneratingPDF (state p) = true ↔ pdfTimers p = 1%nat) ∧ (pdfTimers p ≤ 1)%nat.

End ReviewLogsPage.

(** ** The dates of the UTC host *)

Module UtcDate.
Local Open Scope Z_scope.

(** The calendar date [YYYY-MM-DD] of an instant, for the years 0-9999. *)
Definition utc_isoDate (t : Z) : string :=
  let '(y, m, d) := civil_from_days (t / msPerDay) in
  pad 4 y +:+ "-" +:+ pad 2 m +:+ "-" +:+ pad 2 d.

End UtcDate.

(** ** The map component of the planning page and its click handler *)

Module PlanTripMap.
Import Trip PlanTrip.

(** What [geocoding.reverse] resolves to, or its rejection. *)
Inductive ReverseResult : Type :=
| ReverseFeatures (features : list LocationInput.GeocodingResult)
| ReverseFailure.

(** [handleMapLocationSelect] of the page (PlanTrip.tsx, lines 62-67). *)
Definition handleMapLocationSelect (la ln : Q) (address : string) : Eff State unit :=
  toast {| title := "Location Selected";
           description :=
             "Click on a location input field, then select this point: " +:+ address;
           variant := None |}.

(** [handleMapClick] of the map component after its [await]: the first
    feature is passed to [onLocationSelect]; no feature, or a failure
    (which is logged), passes nothing. *)
Definition handleMapClick (onLocationSelect : Q → Q → string → Eff State unit)
    (ln la : Q) (r : ReverseResult) : Eff State unit :=
  match r with
  | ReverseFeatures (f :: _) => onLocationSelect la ln (LocationInput.place_name f)
  | ReverseFeatures [] => mret ()
  | ReverseFailure => mret ()
  end.

(** A click on the map of the planning page. *)
Definition mapClicked (ln la : Q) (r : ReverseResult) : Eff State unit :=
  handleMapClick handleMapLocationSelect ln la r.

(** Whether a timer is the rest of a submission. *)
Definition isResume (tm : Timer) : bool :=
  match task tm with
  | PlanTripResume _ _ _ _ _ => true
  | NavigateTask _ => false
  end.

(** Whether an event changes only the form: a text change without
    coordinates, a change of the cycle hours, or "Clear All Fields". *)
Definition formOnly (e : Event) : bool :=
  match e with
  | LocationChange _ _ None | CycleHoursChange _ | ClearAllClicked => true
  | _ => false
  end.

End PlanTripMap.

(** ** src/context/TripContext.tsx *)

Module TripContext.

(** A trip object as the provider holds it: [{...prevData!, field: v}]
    on an absent trip has only that field. *)
Record TripObject : Type := {
  currentLocation : option string;
  pickupLocation : option string;
  dropoffLocation : option string;
  cycleHours : option Q;
  mapLocations : option (list Trip.Location);
  plannedAt : option string
}.

(** [{...prevData}]: the fields of the trip, none for [null]. *)
Definition spread (prevData : option TripObject) : TripObject :=
  match prevData with
  | Some d => d
  | None => {| currentLocation := None; pickupLocation := None;
               dropoffLocation := None; cycleHours := None;
               mapLocations := None; plannedAt := None |}
  end.

(** The provider's state, the local storage (JSON text read back as the
    object it encodes) and the clock. *)
Record State : Type := {
  tripData : option TripObject;
  storage : gmap string TripObject;
  clock : Z
}.

(** The effect on [tripData] (lines 32-38). *)
Definition useEffect (st : State) : State :=
  match tripData st with
  | Some d => {| tripData := tripData st; storage := <["tripData" := d]> (storage st);
                 clock := clock st |}
  | None => {| tripData := tripData st; storage := delete "tripData" (storage st);
               clock := clock st |}
  end.

(** [setTripData], followed by the render and its effect. *)
Definition setTripData (d : option TripObject) (st : State) : State :=
  useEffect {| tripData := d; storage := storage st; clock := clock st |}.

(** The provider mounts: the initial state is read from the storage
    (lines 27-30) and the effect runs. *)
Definition mount (s : gmap string TripObject) (now : Z) : State :=
  useEffect {| tripData := s !! "tripData"; storage := s; clock := now |}.

Definition updateCurrentLocation (location : string) (st : State) : State :=
  let d := spread (tripData st) in
  setTripData (Some {| currentLocation := Some location;
                       pickupLocation := pickupLocation d;
                       dropoffLocation := dropoffLocation d;
                       cycleHours := cycleHours d;
                       mapLocations := mapLocations d;
                       plannedAt := plannedAt d |}) st.

Definition updatePickupLocation (location : string) (st : State) : State :=
  let d := spread (tripData st) in
  setTripData (Some {| currentLocation := currentLocation d;
                       pickupLocation := Some location;
                       dropoffLocation := dropoffLocation d;
                       cycleHours := cycleHours d;
                       mapLocations := mapLocations d;
                       plannedAt := plannedAt d |}) st.

Definition updateDropoffLocation (location : string) (st : State) : State :=
  let d := spread (tripData st) in
  setTripData (Some {| currentLocation := currentLocation d;
                       pickupLocation := pickupLocation d;
                       dropoffLocation := Some location;
                       cycleHours := cycleHours d;
                       mapLocations := mapLocations d;
                       plannedAt := plannedAt d |}) st.

Definition updateCycleHours (hours : Q) (st : State) : State :=
  let d := spread (tripData st) in
  setTripData (Some {| currentLocation := currentLocation d;
                       pickupLocation := pickupLocation d;
                       dropoffLocation := dropoffLocation d;
                       cycleHours := Some hours;
                       mapLocations := mapLocations d;
                       plannedAt := plannedAt d |}) st.

(** [planTrip(locations)] (lines 56-62); printing the date throws outside
    the range of [Date], and the state stays. *)
Definition planTrip `{DateHost} (locations : list Trip.Location) (st : State) : State :=
  let d := spread (tripData st) in
  match Date_toISOString (TimeClip (clock st)) with
  | Ok iso =>
      setTripData (Some {| currentLocation := currentLocation d;
                           pickupLocation := pickupLocation d;
                           dropoffLocation := dropoffLocation d;
                           cycleHours := cycleHours d;
                           mapLocations := Some locations;
                           plannedAt := Some iso |}) st
  | Throw _ => st
  end.

Inductive Op : Type :=
| SetTripData (d : option TripObject)
| UpdateCurrentLocation (location : string)
| UpdatePickupLocation (location : string)
| UpdateDropoffLocation (location : string)
| UpdateCycleHours (hours : Q)
| PlanTrip (locations : list Trip.Location)
| Elapse (ms : Z).

Definition apply `{DateHost} (o : Op) (st : State) : State :=
  match o with
  | SetTripData d => setTripData d st
  | UpdateCurrentLocation l => updateCurrentLocation l st
  | UpdatePickupLocation l => updatePickupLocation l st
  | UpdateDropoffLocation l => updateDropoffLocation l st
  | UpdateCycleHours h => updateCycleHours h st
  | PlanTrip locs => planTrip locs st
  | Elapse ms => {| tripData := tripData st; storage := storage st;
                    clock := (clock st + Z.max 0 ms)%Z |}
  end.

Definition run `{DateHost} (ops : list Op) (st : State) : State :=
  foldl (λ st o, apply o st) st ops.

End TripContext.

(** ** src/components/map/InteractiveMap.tsx (the simulated map) *)

Module SimulatedMap.
Import Trip.
Local Open Scope Q_scope.

(** A click: the pointer and the bounding rectangle of the canvas. *)
Record MouseEvent : Type := {
  clientX : Q;
  clientY : Q;
  rect_left : Q;
  rect_top : Q;
  rect_width : Q;
  rect_height : Q
}.

(** What [onLocationSelect] receives. *)
Record Selection : Type := {
  sel_lat : Q;
  sel_lng : Q;
  sel_address : string
}.

Record State : Type := {
  isLoading : bool;
  mapInteraction : option string
}.

(** The position of the click in percent of the canvas (lines 41-43). *)
Definition percentX (e : MouseEvent) : Q :=
  ((clientX e - rect_left e) / rect_width e) * 100.
Definition percentY (e : MouseEvent) : Q :=
  ((clientY e - rect_top e) / rect_height e) * 100.

Section WithToFixed.
(** [n.toFixed(digits)] of the host. *)
Variable toFixed : Q → nat → string.

(** [handleMapClick] (lines 38-56): the new state and what is passed to
    [onLocationSelect]. *)
Definition handleMapClick (st : State) (event : MouseEvent) : State * option Selection :=
  if isLoading st then (st, None)
  else
    let x := percentX event in
    let y := percentY event in
    let lat := 40.7128 + (y - 50) * 0.1 in
    let lng := -74.0060 + (x - 50) * 0.1 in
    let address := "Location at " +:+ toFixed lat 4 +:+ ", " +:+ toFixed lng 4 in
    ({| isLoading := isLoading st; mapInteraction := Some ("Selected: " +:+ address) |},
     Some {| sel_lat := lat; sel_lng := lng; sel_address := address |}).

End WithToFixed.

(** The [left] and [top] of a marker, in percent (lines 95-96). *)
Definition markerLeft (location : Location) : Q := 50 + (lng location + 74.0060) * 500.
Definition markerTop (location : Location) : Q := 50 + (40.7128 - lat location) * 500.


(** A line of the route: x1, y1, x2, y2 in percent (lines 130-133). *)
Definition line (prevLocation location : Location) : Q * Q * Q * Q :=
  (50 + (lng prevLocation + 74.0060) * 500,
   50 + (40.7128 - lat prevLocation) * 500,
   50 + (lng location + 74.0060) * 500,
   50 + (40.7128 - lat location) * 500).

(** [rest.map((location, index) => ... locations[index] ...)], counting
    [index] from the given one; reading a field of [undefined] throws. *)
Fixpoint linesFrom (locations : list Location) (index : nat) (rest : list Location)
    : option (list (Q * Q * Q * Q)) :=
  match rest with
  | [] => Some []
  | location :: rest' =>
      prevLocation ← locations !! index;
      ls ← linesFrom locations (S index) rest';
      Some (line prevLocation location :: ls)
  end.

(** The lines of the route (lines 120-149); [Some []] when none is drawn. *)
Definition routeLines (isLoading showRoute : bool) (locations : list Location)
    : option (list (Q * Q * Q * Q)) :=
  if negb isLoading && showRoute && (2 <=? length locations)%nat
  then linesFrom locations 0 (drop 1 locations)
  else Some [].

End SimulatedMap.

(** ** The location input with mock suggestions (the variant that takes
       a [mapboxToken]) *)

Module MockLocationInput.
Local Open Scope Q_scope.

Record LocationSuggestion : Type := {
  id : string;
  address : string;
  lat : Q;
  lng : Q;
  type : string
}.

(** The [value] prop, the component's cells and the pending timeout of
    the debounced request (with the text it will look up). *)
Record State : Type := {
  value : string;
  suggestions : list LocationSuggestion;
  showSuggestions : bool;
  isValid : bool;
  timeoutId : option string
}.

(** A token in a condition: [undefined] and the empty string are falsy. *)
Definition hasToken (mapboxToken : option string) : bool :=
  match mapboxToken with
  | Some (String _ _) => true
  | _ => false
  end.

(** The fallback suggestions (lines 70-92). *)
Definition mockSuggestions (value : string) : list LocationSuggestion :=
  [ {| id := "1"; address := value +:+ " - Interstate 95, Mile Marker 45";
       lat := 40.7128; lng := -74.0060; type := "highway" |};
    {| id := "2"; address := value +:+ " - Distribution Center";
       lat := 40.7580; lng := -73.9855; type := "facility" |};
    {| id := "3"; address := value +:+ " - Truck Stop & Fuel";
       lat := 40.6892; lng := -74.0445; type := "fuel" |} ].

(** The effect on [value] and [mapboxToken] (lines 41-101), after the
    cleanup of the previous one, up to the timeout of the request.  With
    a token the effect returns its cleanup (line 67) before it reaches
    [setIsValid] (line 100). *)
Definition useEffect (mapboxToken : option string) (st : State) : State :=
  if (2 <? String.length (value st))%nat && hasToken mapboxToken then
    {| value := value st; suggestions := suggestions st;
       showSuggestions := showSuggestions st;
       isValid := isValid st;
       timeoutId := Some (value st) |}
  else if (2 <? String.length (value st))%nat then
    {| value := value st; suggestions := mockSuggestions (value st);
       showSuggestions := true;
       isValid := (5 <? String.length (value st))%nat;
       timeoutId := None |}
  else
    {| value := value st; suggestions := []; showSuggestions := false;
       isValid := (5 <? String.length (value st))%nat;
       timeoutId := None |}.

(** A handler has changed the cells to [st'] and asked the parent for
    the value [v]: the component renders, and the effect runs when the
    value changed. *)
Definition render (mapboxToken : option string) (v : string) (old : string)
    (st' : State) : State :=
  let st'' := {| value := v; suggestions := suggestions st';
                 showSuggestions := showSuggestions st'; isValid := isValid st';
                 timeoutId := timeoutId st' |} in
  if decide (v = old) then st'' else useEffect mapboxToken st''.

(** Typing: [onChange(e.target.value)]. *)
Definition typed (mapboxToken : option string) (v : string) (st : State) : State :=
  render mapboxToken v (value st) st.

(** [handleSuggestionClick] (lines 103-107). *)
Definition handleSuggestionClick (mapboxToken : option string)
    (suggestion : LocationSuggestion) (st : State) : State :=
  render mapboxToken (address suggestion) (value st)
    {| value := value st; suggestions := suggestions st; showSuggestions := false;
       isValid := true; timeoutId := timeoutId st |}.

(** [clearInput] (lines 109-113). *)
Definition clearInput (mapboxToken : option string) (st : State) : State :=
  render mapboxToken "" (value st)
    {| value := value st; suggestions := suggestions st;
       showSuggestions := showSuggestions st; isValid := false;
       timeoutId := timeoutId st |}.

End MockLocationInput.

(** ** Invariants of the location input *)

Module LocationInputInvariant.
Import LocationInput.

(** The pending timeout carries the latest text, the requests in flight
    are for texts longer than two characters, and they are numbered
    distinctly, below the number of the next one. *)
Definition requestsWellFormed (st : State) : Prop :=
  (handler st = None ∨ handler st = Some (value st)) ∧
  Forall (λ rq, (2 < String.length (query rq))%nat ∧ (seq rq < issued st)%nat)
         (inFlight st) ∧
  NoDup (seq <$> inFlight st).

End LocationInputInvariant.

(** ** Sample inputs *)

Module Samples.
Import Trip.

Definition browser0 : Browser :=
  {| localStorage := ∅; toasts := []; navigated := [] |}.

(** The record of the spec's scenario. *)
Definition trip : TripData :=
  {| currentLocation := "A"; pickupLocation := "B"; dropoffLocation := "C";
     cycleHours := 35.5; mapLocations := [];
     plannedAt := "2024-01-01T00:00:00Z" |}.

End Samples.

(** * Properties *)

(** ** The monad *)

Lemma Eff_bind_ok {S A B} (m : Eff S A) (f : A → Eff S B) st a st' :
  m st = (Ok a, st') → (m ≫= f) st = f a st'.
Proof. intros E. unfold mbind, Eff_bind. by rewrite E. Qed.

(** ** The UTC host reads what it prints *)

Module UtcHostFacts.
Local Open Scope Z_scope.

Ltac case_tests :=
  repeat match goal with
  | |- context [?a <? ?b] => destruct (Z.ltb_spec a b)
  | |- context [?a <=? ?b] => destruct (Z.leb_spec a b)
  | |- context [?a =? ?b] => destruct (Z.eqb_spec a b)
  end.

Lemma civil_roundtrip z :
  let '(y, m, d) := civil_from_days z in
  days_from_civil y m d = z ∧ 1 ≤ m ≤ 12.
Proof.
  unfold civil_from_days, days_from_civil. cbv zeta.
  case_tests; Z.div_mod_to_equations; lia.
Qed.

Lemma civil_day_in_month z :
  let '(y, m, d) := civil_from_days z in 1 ≤ d ≤ daysInMonth y m.
Proof.
  unfold civil_from_days, daysInMonth, isLeap. cbv zeta.
  case_tests; cbn [andb orb negb]; Z.div_mod_to_equations; lia.
Qed.

Lemma civil_year z :
  0 ≤ z < 2932897 →
  let '(y, m, d) := civil_from_days z in 1970 ≤ y ≤ 9999.
Proof.
  intros Hz. unfold civil_from_days. cbv zeta.
  case_tests; Z.div_mod_to_equations; lia.
Qed.

Lemma daysInMonth_le y m : daysInMonth y m ≤ 31.
Proof. unfold daysInMonth. repeat case_match; lia. Qed.

Lemma days_from_civil_day y m d :
  days_from_civil y m 1 + d - 1 = days_from_civil y m d.
Proof. unfold days_from_civil. cbv zeta. lia. Qed.

Lemma digit_val_digit n : digit_val (digit n) = Some (n mod 10).
Proof.
  pose proof (Z.mod_pos_bound n 10 ltac:(lia)) as Hb.
  unfold digit_val, digit. rewrite nat_ascii_embedding by lia.
  rewrite Nat2Z.inj_add, Z2Nat.id by lia. cbv zeta.
  replace ((48 <=? Z.of_nat 48 + n mod 10) && (Z.of_nat 48 + n mod 10 <=? 57))
    with true by (symmetry; apply andb_true_iff; split; apply Z.leb_le; lia).
  f_equal. lia.
Qed.

Lemma read_digits_S w acc s :
  read_digits (S w) acc s =
    '(a, s') ← read_digits w acc s;
    match s' with
    | String c s'' => d ← digit_val c; Some (10 * a + d, s'')
    | EmptyString => None
    end.
Proof.
  revert acc s. induction w as [|w IH]; intros acc s.
  - destruct s as [|c s]; [reflexivity|]. cbn. by destruct (digit_val c).
  - destruct s as [|c s]; [reflexivity|].
    change (read_digits (S (S w)) acc (String c s))
      with (d ← digit_val c; read_digits (S w) (10 * acc + d) s).
    change (read_digits (S w) acc (String c s))
      with (d ← digit_val c; read_digits w (10 * acc + d) s).
    destruct (digit_val c) as [d|]; [|reflexivity]. cbn [mbind option_bind].
    apply IH.
Qed.

Lemma append_snoc s c rest :
  (s +:+ String c EmptyString) +:+ rest = s +:+ String c rest.
Proof.
  induction s as [|a s IH]; [reflexivity|].
  change (String a ((s +:+ String c EmptyString) +:+ rest) = String a (s +:+ String c rest)).
  by rewrite IH.
Qed.

Lemma read_digits_pad w n acc rest :
  read_digits w acc (pad w n +:+ rest) =
    Some (acc * 10 ^ Z.of_nat w + n mod 10 ^ Z.of_nat w, rest).
Proof.
  revert n rest. induction w as [|w IH]; intros n rest.
  - cbn. rewrite Z.mod_1_r. do 2 f_equal. lia.
  - rewrite read_digits_S.
    change (pad (S w) n) with (pad w (n / 10) +:+ String (digit n) EmptyString).
    rewrite append_snoc, IH. cbn [mbind option_bind]. rewrite digit_val_digit.
    cbn [mbind option_bind]. do 2 f_equal.
    rewrite Nat2Z.inj_succ, Z.pow_succ_r by lia.
    rewrite (Z.rem_mul_r n 10 (10 ^ Z.of_nat w)) by lia. lia.
Qed.

Lemma read_digits_pad_small w n rest :
  0 ≤ n < 10 ^ Z.of_nat w →
  read_digits w 0 (pad w n +:+ rest) = Some (n, rest).
Proof. intros Hn. rewrite read_digits_pad, Z.mod_small by exact Hn. by f_equal. Qed.

Lemma read_year_digit c s k :
  digit_val c = Some k → read_year (String c s) = read_digits 4 0 (String c s).
Proof.
  destruct c as [[] [] [] [] [] [] [] []]; intros E; try discriminate E; reflexivity.
Qed.

Lemma read_year_pad y rest :
  0 ≤ y < 10 ^ 4 → read_year (pad 4 y +:+ rest) = Some (y, rest).
Proof.
  intros Hy. rewrite <- (read_digits_pad_small 4 y rest) by exact Hy.
  assert (∃ s, pad 4 y +:+ rest = String (digit (y / 10 / 10 / 10)) s) as [s ->]
    by (eexists; reflexivity).
  eapply read_year_digit, digit_val_digit.
Qed.

Lemma expect_literal c rest :
  expect c (String c EmptyString +:+ rest) = Some rest.
Proof.
  change (String c EmptyString +:+ rest) with (String c rest).
  unfold expect. by rewrite Ascii.eqb_refl.
Qed.

Lemma read_millis_dot rest : read_millis ("." +:+ rest) = read_digits 3 0 rest.
Proof. reflexivity. Qed.

(** Every instant of the years 1970 to 9999 is read back from its ISO
    text. *)
Lemma utc_parse_toISOString t :
  0 ≤ t < 253402300800000 → utc_parse (utc_toISOString t) = Some t.
Proof.
  intros Ht. unfold utc_toISOString.
  assert (0 ≤ t / msPerDay < 2932897) as Hz
    by (unfold msPerDay; Z.div_mod_to_equations; lia).
  pose proof (civil_roundtrip (t / msPerDay)) as Hrt.
  pose proof (civil_day_in_month (t / msPerDay)) as Hdim.
  pose proof (civil_year (t / msPerDay) Hz) as Hyr.
  destruct (civil_from_days (t / msPerDay)) as [[y m] d].
  destruct Hrt as [Hdays Hm].
  pose proof (daysInMonth_le y m) as Hle.
  pose proof (Z.mod_pos_bound t msPerDay ltac:(reflexivity)) as Hr.
  set (r := t mod msPerDay) in *. unfold msPerDay in Hr.
  replace ((0 <=? y) && (y <=? 9999)) with true
    by (symmetry; apply andb_true_iff; split; apply Z.leb_le; lia).
  unfold utc_parse.
  rewrite read_year_pad by lia. cbn [mbind option_bind].
  rewrite expect_literal. cbn [mbind option_bind].
  rewrite read_digits_pad_small by (cbn; lia). cbn [mbind option_bind].
  rewrite expect_literal. cbn [mbind option_bind].
  rewrite read_digits_pad_small by (cbn; lia). cbn [mbind option_bind].
  rewrite expect_literal. cbn [mbind option_bind].
  rewrite read_digits_pad_small by (cbn; Z.div_mod_to_equations; lia).
  cbn [mbind option_bind].
  rewrite expect_literal. cbn [mbind option_bind].
  rewrite read_digits_pad_small by (cbn; Z.div_mod_to_equations; lia).
  cbn [mbind option_bind].
  rewrite expect_literal. cbn [mbind option_bind].
  rewrite read_digits_pad_small by (cbn; Z.div_mod_to_equations; lia).
  cbn [mbind option_bind].
  rewrite read_millis_dot.
  rewrite read_digits_pad_small by (cbn; Z.div_mod_to_equations; lia).
  cbn [mbind option_bind].
  change (expect "Z" "Z") with (Some EmptyString).
  cbn [mbind option_bind String.length Nat.eqb andb].
  replace ((1 <=? m) && (m <=? 12) && (1 <=? d) && (d <=? daysInMonth y m)
           && (r / 3600000 <=? 23) && (r / 60000 mod 60 <=? 59)
           && (r / 1000 mod 60 <=? 59)) with true
    by (symmetry; rewrite !andb_true_iff; repeat split; apply Z.leb_le;
        try lia; Z.div_mod_to_equations; lia).
  rewrite Hdays.
  replace (t / msPerDay * msPerDay + r / 3600000 * 3600000 + r / 60000 mod 60 * 60000
           + r / 1000 mod 60 * 1000 + r mod 1000) with t
    by (subst r; unfold msPerDay; Z.div_mod_to_equations; lia).
  unfold TimeClip, maxTime.
  replace (Z.abs t <=? 8640000000000000) with true
    by (symmetry; apply Z.leb_le; lia).
  reflexivity.
Qed.

(** So a record stamped by the UTC host in those years is one the
    generator accepts. *)
Lemma utc_plannedAt_ok (data : Trip.TripData) t :
  0 ≤ t < 253402300800000 →
  Trip.plannedAt data = utc_toISOString t →
  @ReviewLogs.plannedAt_ok utcHost data.
Proof.
  intros Ht Hp. exists t. split.
  - rewrite Hp. by apply utc_parse_toISOString.
  - intros day Hday. cbn [setDate getDate utcHost]. unfold utc_setDate, utc_getDate.
    pose proof (civil_roundtrip (t / msPerDay)) as Hrt.
    destruct (civil_from_days (t / msPerDay)) as [[y m] d].
    destruct Hrt as [Hdays _]. cbn [snd].
    replace (days_from_civil y m 1 + (d + day) - 1) with (t / msPerDay + day)
      by (rewrite <- Hdays, <- (days_from_civil_day y m d); lia).
    unfold TimeClip, maxTime.
    replace (Z.abs _ <=? 8640000000000000) with true; [eauto|].
    symmetry. apply Z.leb_le. unfold msPerDay. Z.div_mod_to_equations. lia.
Qed.

End UtcHostFacts.

(** ** The mock log generator *)

Module ReviewLogsFacts.
Import Trip ReviewLogs.

Section WithHost.
Context `{DateHost}.

Lemma logOfDay_ok data t day t' :
  setDate t (getDate t + day) = Some t' →
  logOfDay data (Some t) day =
    Ok {| id := "log-" +:+ pretty (day + 1)%Z;
          date := split_T_0 (toISOString t');
          drivingTime := 10; onDutyTime := 1; sleeperTime := 12; offDutyTime := 1;
          segments := segments_of data day |}.
Proof. intros E. unfold logOfDay. cbn. rewrite E. reflexivity. Qed.

Lemma logOfDay_invalid data day :
  logOfDay data None day = Throw (RangeError "Invalid time value").
Proof. reflexivity. Qed.

Lemma generateELDLogs_ok data st :
  plannedAt_ok data →
  ∃ d0 d1 d2,
    generateELDLogs data st = (Ok (), (setEldLogs (logsFor data d0 d1 d2) st).2).
Proof.
  intros (t & Hp & Hd).
  destruct (Hd 0%Z ltac:(lia)) as [t0 E0].
  destruct (Hd 1%Z ltac:(lia)) as [t1 E1].
  destruct (Hd 2%Z ltac:(lia)) as [t2 E2].
  exists (split_T_0 (toISOString t0)), (split_T_0 (toISOString t1)),
         (split_T_0 (toISOString t2)).
  unfold generateELDLogs. rewrite Hp.
  cbn [forDays]. rewrite (logOfDay_ok _ _ _ _ E0). cbn [mbind result_bind].
  change (0 + 1)%Z with 1%Z. rewrite (logOfDay_ok _ _ _ _ E1). cbn [mbind result_bind].
  change (1 + 1)%Z with 2%Z. rewrite (logOfDay_ok _ _ _ _ E2). cbn [mbind result_bind].
  reflexivity.
Qed.


End WithHost.

(** On the UTC host the hypothesis on a concrete date is settled by
    running the host at the instant [t] the date denotes. *)
Ltac plannedAt_by_computation t :=
  exists t; split;
  [ vm_compute; reflexivity
  | let day := fresh "day" in
    let Hday := fresh "Hday" in
    intros day Hday;
    assert (day = 0 ∨ day = 1 ∨ day = 2)%Z as [-> | [-> | ->]] by lia;
    vm_compute; eauto ].

End ReviewLogsFacts.

Module ReviewLogsClaims.
Import Trip ReviewLogs ReviewLogsFacts.

(** C1. For every trip record (whose [plannedAt] is a date the host reads,
    with the next two days representable), the mock log generator stores
    exactly 3 daily logs, each with exactly 5 segments whose durations sum
    to 24 hours. *)
Theorem generateELDLogs_three_logs_of_24_hours `{DateHost}
    (data : TripData) (st : State) :
  plannedAt_ok data →
  ∃ st', generateELDLogs data st = (Ok (), st') ∧
         length (eldLogs st') = 3%nat ∧
         Forall (λ log, length (segments log) = 5%nat ∧
                        (totalHours (segments log) == 24)%Q) (eldLogs st').
Proof.
  intros Hok. destruct (generateELDLogs_ok data st Hok) as (d0 & d1 & d2 & E).
  eexists. split; [exact E|]. cbn. split; [reflexivity|].
  repeat constructor.
Qed.

Lemma generateELDLogs_three_logs_of_24_hours_witness :
  @plannedAt_ok utcHost Samples.trip ∧
  ∃ st', @generateELDLogs utcHost Samples.trip (initial Samples.browser0) = (Ok (), st') ∧
         length (eldLogs st') = 3%nat ∧
         Forall (λ log, length (segments log) = 5%nat ∧
                        (totalHours (segments log) == 24)%Q) (eldLogs st').
Proof.
  assert (@plannedAt_ok utcHost Samples.trip) as Hok
    by plannedAt_by_computation 1704067200000%Z.
  split; [exact Hok|].
  exact (@generateELDLogs_three_logs_of_24_hours utcHost Samples.trip
           (initial Samples.browser0) Hok).
Defined.

(** C3. In the generated logs, the first segment of day 0 is at the
    record's current location, the 07:00-12:00 driving segment of day 1 at
    its pickup location, the 13:00-18:00 driving segment of day 2 at its
    drop-off location, and every other segment is at a fixed placeholder. *)
Theorem generateELDLogs_locations `{DateHost} (data : TripData) (st : State) :
  plannedAt_ok data →
  ∃ st' log0 log1 log2,
    generateELDLogs data st = (Ok (), st') ∧
    eldLogs st' = [log0; log1; log2] ∧
    segments log0 !! 0%nat =
      Some {| startTime := "06:00"; endTime := "07:00"; status := onduty;
              location := currentLocation data; duration := 1 |} ∧
    segments log1 !! 1%nat =
      Some {| startTime := "07:00"; endTime := "12:00"; status := driving;
              location := pickupLocation data; duration := 5 |} ∧
    segments log2 !! 3%nat =
      Some {| startTime := "13:00"; endTime := "18:00"; status := driving;
              location := dropoffLocation data; duration := 5 |} ∧
    location <$> segments log0 =
      [currentLocation data; "Highway I-95"; "Truck Stop & Fuel"; "Highway I-75";
       "Authorized Parking Area"] ∧
    location <$> segments log1 =
      ["Rest Area Mile 45"; pickupLocation data; "Truck Stop & Fuel"; "Highway I-75";
       "Authorized Parking Area"] ∧
    location <$> segments log2 =
      ["Rest Area Mile 45"; "Highway I-95"; "Truck Stop & Fuel"; dropoffLocation data;
       "Authorized Parking Area"].
Proof.
  intros Hok. destruct (generateELDLogs_ok data st Hok) as (d0 & d1 & d2 & E).
  do 4 eexists. split; [exact E|]. split; [reflexivity|].
  repeat split.
Qed.

Lemma generateELDLogs_locations_witness :
  @plannedAt_ok utcHost Samples.trip ∧
  ∃ st' log0 log1 log2,
    @generateELDLogs utcHost Samples.trip (initial Samples.browser0) = (Ok (), st') ∧
    eldLogs st' = [log0; log1; log2] ∧
    segments log0 !! 0%nat =
      Some {| startTime := "06:00"; endTime := "07:00"; status := onduty;
              location := "A"; duration := 1 |} ∧
    segments log1 !! 1%nat =
      Some {| startTime := "07:00"; endTime := "12:00"; status := driving;
              location := "B"; duration := 5 |} ∧
    segments log2 !! 3%nat =
      Some {| startTime := "13:00"; endTime := "18:00"; status := driving;
              location := "C"; duration := 5 |} ∧
    location <$> segments log0 =
      ["A"; "Highway I-95"; "Truck Stop & Fuel"; "Highway I-75";
       "Authorized Parking Area"] ∧
    location <$> segments log1 =
      ["Rest Area Mile 45"; "B"; "Truck Stop & Fuel"; "Highway I-75";
       "Authorized Parking Area"] ∧
    location <$> segments log2 =
      ["Rest Area Mile 45"; "Highway I-95"; "Truck Stop & Fuel"; "C";
       "Authorized Parking Area"].
Proof.
  assert (@plannedAt_ok utcHost Samples.trip) as Hok
    by plannedAt_by_computation 1704067200000%Z.
  split; [exact Hok|].
  exact (@generateELDLogs_locations utcHost Samples.trip (initial Samples.browser0) Hok).
Defined.

End ReviewLogsClaims.

Module ReviewLogsTotals.
Import Trip ReviewLogs ReviewLogsFacts.

Lemma totalsMatchSegments_logsFor data d0 d1 d2 :
  Forall (λ log, drivingTime log = 10%Q ∧ onDutyTime log = 1%Q ∧
                 sleeperTime log = 12%Q ∧ offDutyTime log = 1%Q ∧
                 totalsMatchSegments log) (logsFor data d0 d1 d2).
Proof. repeat constructor. Qed.

(** C4 as stated fails: on the scenario's record no generated log has
    totals that differ from the sums of its segments by status. *)
Lemma totals_differ_refuted :
  ∃ st', @generateELDLogs utcHost Samples.trip (initial Samples.browser0) = (Ok (), st') ∧
         ¬ ∃ log, log ∈ eldLogs st' ∧ ¬ totalsMatchSegments log.
Proof.
  destruct (@generateELDLogs_ok utcHost Samples.trip (initial Samples.browser0))
    as (d0 & d1 & d2 & E).
  - plannedAt_by_computation 1704067200000%Z.
  - eexists. split; [exact E|].
    intros (log & Hin & Hne). apply Hne.
    pose proof (totalsMatchSegments_logsFor Samples.trip d0 d1 d2) as Hall.
    rewrite Forall_forall in Hall. apply (Hall log Hin).
Qed.

(** C4, amended. The four totals of every generated log are the literals
    10 (driving), 1 (on duty), 12 (sleeper) and 1 (off duty), and they are
    equal to the sums of that day's segment durations grouped by status. *)
Theorem generateELDLogs_totals_match_segments `{DateHost}
    (data : TripData) (st : State) :
  plannedAt_ok data →
  ∃ st', generateELDLogs data st = (Ok (), st') ∧
         Forall (λ log, drivingTime log = 10%Q ∧ onDutyTime log = 1%Q ∧
                        sleeperTime log = 12%Q ∧ offDutyTime log = 1%Q ∧
                        totalsMatchSegments log) (eldLogs st').
Proof.
  intros Hok. destruct (generateELDLogs_ok data st Hok) as (d0 & d1 & d2 & E).
  eexists. split; [exact E|]. apply totalsMatchSegments_logsFor.
Qed.

Lemma generateELDLogs_totals_match_segments_witness :
  @plannedAt_ok utcHost Samples.trip ∧
  ∃ st', @generateELDLogs utcHost Samples.trip (initial Samples.browser0) = (Ok (), st') ∧
         Forall (λ log, drivingTime log = 10%Q ∧ onDutyTime log = 1%Q ∧
                        sleeperTime log = 12%Q ∧ offDutyTime log = 1%Q ∧
                        totalsMatchSegments log) (eldLogs st').
Proof.
  assert (@plannedAt_ok utcHost Samples.trip) as Hok
    by plannedAt_by_computation 1704067200000%Z.
  split; [exact Hok|].
  exact (@generateELDLogs_totals_match_segments utcHost Samples.trip
           (initial Samples.browser0) Hok).
Defined.

End ReviewLogsTotals.

(** ** The cycle-hours severity *)

Module CycleHoursSliderClaims.
Import CycleHoursSlider.
Local Open Scope Q_scope.

Lemma value_of_ratio (v : Q) : v == v / 70 * 70.
Proof. field. Qed.

Lemma Qle_bool_false (x y : Q) : Qle_bool x y = false ↔ y < x.
Proof.
  split.
  - intros E. apply Qnot_le_lt. intros L. apply Qle_bool_iff in L. congruence.
  - intros L. destruct (Qle_bool x y) eqn:E; [|reflexivity].
    apply Qle_bool_iff in E. exfalso. exact (Qlt_not_le _ _ L E).
Qed.

Lemma getStatusColor_critical (v m : Q) :
  90 <= v / m * 100 → getStatusColor v m = "text-destructive".
Proof.
  intros L. unfold getStatusColor. cbv zeta.
  apply Qle_bool_iff in L. by rewrite L.
Qed.

Lemma getStatusColor_warning (v m : Q) :
  75 <= v / m * 100 → v / m * 100 < 90 → getStatusColor v m = "text-warning".
Proof.
  intros L U. unfold getStatusColor. cbv zeta.
  apply Qle_bool_iff in L. apply Qle_bool_false in U. by rewrite U, L.
Qed.

Lemma getStatusColor_normal (v m : Q) :
  v / m * 100 < 75 → getStatusColor v m = "text-success".
Proof.
  intros U. unfold getStatusColor. cbv zeta.
  assert (v / m * 100 < 90) as U' by lra.
  apply Qle_bool_false in U, U'. by rewrite U', U.
Qed.

(** On every value the slider can hold, binary64 arithmetic and exact
    arithmetic give the same colour and the same bar. *)
Lemma binary64_agrees_on_slider :
  Forall (λ k, getStatusColor_binary64 (sliderValue_binary64 k) 70%float
                 = getStatusColor (sliderValue k) 70 ∧
               barColor_binary64 (sliderValue_binary64 k) 70%float
                 = barColor (sliderValue k) 70)
         (seq 0 141).
Proof. apply (bool_decide_unpack _). vm_compute. exact I. Qed.

(** C5. With [maxHours = 70] and a value [v] in [0, 70], the severity is
    normal (success colour, no advisory) when v/70 < 75%, warning (warning
    colour, the warning advisory) when 75% <= v/70 < 90%, and critical
    (destructive colour, the critical advisory) when v/70 >= 90%; in
    particular 0 is normal, 52.5 is warning and 70 is critical. *)
Theorem severity_thresholds (v : Q) :
  0 <= v <= 70 →
  (v / 70 < 0.75 →
     getStatusColor v maxHours_default = "text-success" ∧
     warningAdvisoryShown v maxHours_default = false ∧
     criticalAdvisoryShown v maxHours_default = false) ∧
  (0.75 <= v / 70 < 0.9 →
     getStatusColor v maxHours_default = "text-warning" ∧
     warningAdvisoryShown v maxHours_default = true ∧
     criticalAdvisoryShown v maxHours_default = false) ∧
  (0.9 <= v / 70 →
     getStatusColor v maxHours_default = "text-destructive" ∧
     warningAdvisoryShown v maxHours_default = false ∧
     criticalAdvisoryShown v maxHours_default = true) ∧
  getStatusColor 0 maxHours_default = "text-success" ∧
  getStatusColor 52.5 maxHours_default = "text-warning" ∧
  getStatusColor 70 maxHours_default = "text-destructive".
Proof.
  intros _. pose proof (value_of_ratio v) as Hv.
  unfold maxHours_default, warningAdvisoryShown, criticalAdvisoryShown.
  split; [|split; [|split; [|repeat split; reflexivity]]].
  - intros U. split; [apply getStatusColor_normal; lra|].
    assert (v < 70 * 0.75) as L by lra. apply Qle_bool_false in L. rewrite L.
    split; [reflexivity|]. apply Qle_bool_false. lra.
  - intros [L U]. split; [apply getStatusColor_warning; lra|].
    assert (70 * 0.75 <= v) as L' by lra. assert (v < 70 * 0.9) as U' by lra.
    apply Qle_bool_iff in L'. apply Qle_bool_false in U'. by rewrite L', U'.
  - intros L. split; [apply getStatusColor_critical; lra|].
    assert (70 * 0.9 <= v) as L' by lra. apply Qle_bool_iff in L'. rewrite L'.
    by rewrite andb_false_r.
Qed.

Lemma severity_thresholds_witness :
  0 <= 52.5 <= 70 ∧
  getStatusColor 52.5 maxHours_default = "text-warning" ∧
  warningAdvisoryShown 52.5 maxHours_default = true ∧
  criticalAdvisoryShown 52.5 maxHours_default = false.
Proof.
  assert (0 <= 52.5 <= 70) as Hr by (split; vm_compute; discriminate).
  split; [exact Hr|].
  apply (severity_thresholds 52.5 Hr).
  split; vm_compute; [discriminate | reflexivity].
Defined.

End CycleHoursSliderClaims.

(** ** The review page without a stored trip *)

Module ReviewLogsMount.
Import Trip ReviewLogs.

(** C7. When the page mounts and the slot [currentTrip] holds no record,
    it shows the destructive notice "No Trip Data" and navigates to
    [/plan]; the result is the same whatever is put in the place of the
    log generator, which therefore is not called, and neither the trip
    nor the logs of the state change. *)
Theorem useEffect_without_stored_trip `{DateHost} (st : State) :
  localStorage (browser st) !! "currentTrip" = None →
  ∃ st',
    useEffect st = (Ok (), st') ∧
    (∀ generate, useEffect_with generate st = (Ok (), st')) ∧
    toasts (browser st') =
      toasts (browser st) ++
        [{| title := "No Trip Data";
            description := "Please plan a trip first to view ELD logs.";
            variant := Some "destructive" |}] ∧
    navigated (browser st') = navigated (browser st) ++ ["/plan"] ∧
    localStorage (browser st') = localStorage (browser st) ∧
    tripData st' = tripData st ∧
    eldLogs st' = eldLogs st.
Proof.
  intros E.
  assert (∀ generate, useEffect_with generate st =
            (Ok (), ((toast {| title := "No Trip Data";
                               description := "Please plan a trip first to view ELD logs.";
                               variant := Some "destructive" |};;
                      navigate "/plan") st).2)) as Hgen.
  { intros generate.
    unfold useEffect_with, localStorage_getItem, mbind, Eff_bind, get, mret, Eff_ret.
    cbv beta iota. rewrite E. reflexivity. }
  eexists. split; [apply Hgen|]. split; [exact Hgen|]. cbn. repeat split.
Qed.

Lemma useEffect_without_stored_trip_witness :
  localStorage (browser (initial Samples.browser0)) !! "currentTrip" = None ∧
  ∃ st',
    @useEffect utcHost (initial Samples.browser0) = (Ok (), st') ∧
    navigated (browser st') = ["/plan"] ∧
    eldLogs st' = [].
Proof.
  assert (localStorage (browser (initial Samples.browser0)) !! "currentTrip" = None)
    as E by reflexivity.
  split; [exact E|].
  destruct (@useEffect_without_stored_trip utcHost (initial Samples.browser0) E)
    as (st' & E1 & _ & _ & E2 & _ & _ & E3).
  exists st'. repeat split; assumption.
Defined.

(** With a stored record the generator is called on it. *)
Lemma useEffect_with_stored_trip `{DateHost} (st : State) data :
  localStorage (browser st) !! "currentTrip" = Some data →
  useEffect st = (setTripData (Some data);; generateELDLogs data) st.
Proof.
  intros E.
  unfold useEffect, useEffect_with, localStorage_getItem, mbind, Eff_bind, get, mret,
    Eff_ret.
  cbv beta iota. rewrite E. reflexivity.
Qed.

End ReviewLogsMount.

(** ** Clearing the planning form *)

Module PlanTripClear.
Import Trip PlanTrip.

(** C10. "Clear All Fields" sets the three address texts to the empty
    string, the cycle hours to 0 (the initial value is 35.5) and the
    locations to the empty list; the calculating flag, the map provider
    with its markers and route, the browser, the clock and the timers stay
    as they were. *)
Theorem clearAllFields_effect (st : State) :
  clearAllFields st =
    (Ok (), {| currentLocation := ""; pickupLocation := ""; dropoffLocation := "";
               cycleHours := 0; mapLocations := [];
               isCalculating := isCalculating st; map := map st;
               browser := browser st; clock := clock st; timers := timers st |}) ∧
  (∀ b now, cycleHours (initial b now) = 35.5%Q) ∧
  ¬ (0 == 35.5)%Q.
Proof. split; [reflexivity|]. split; [reflexivity|]. discriminate. Qed.

End PlanTripClear.

(** ** The map provider *)

Module MapContextFacts.
Import Trip MapContext.

Lemma getLayer_empty id src att fit :
  Map_getLayer id {| sources := src; layers := []; attached := att; fitted := fit |}
  = false.
Proof. reflexivity. Qed.

Lemma getLayer_route src att fit :
  Map_getLayer layerId
    {| sources := src; layers := [routeLayer]; attached := att; fitted := fit |}
  = true.
Proof. reflexivity. Qed.

Lemma initMap_wellFormed container st :
  wellFormed st →
  ∃ st', initMap container st = (Ok (), st') ∧ wellFormed st'.
Proof.
  intros Hwf. unfold initMap, mbind, Eff_bind, get.
  destruct st as [[m|] mks init]; cbn.
  - eexists. split; [reflexivity|]. exact Hwf.
  - destruct container; cbn; eexists; (split; [reflexivity|]).
    + cbn in *. split; [left; split; reflexivity | by rewrite Hwf].
    + exact Hwf.
Qed.

(** [addMarker] attaches one more marker and removes none. *)
Lemma addMarker_appends location st m :
  mapInstance st = Some m →
  ∃ fit,
    addMarker location st =
      (Ok (),
       {| mapInstance :=
            Some {| sources := sources m; layers := layers m;
                    attached := attached m ++
                      [{| color := getMarkerColor (type location);
                          lngLat := (lng location, lat location) |}];
                    fitted := fit |};
          markers := markers st ++
            [{| color := getMarkerColor (type location);
                lngLat := (lng location, lat location) |}];
          isMapInitialized := isMapInitialized st |}).
Proof.
  intros E. destruct st as [mi mks init]. cbn in E. subst mi.
  unfold addMarker, fitMapToBounds, onMap, mbind, Eff_bind, get, modify. cbn.
  destruct (mks ++ _) eqn:Hm; [by destruct mks|].
  cbn. eexists. reflexivity.
Qed.

Lemma addMarker_no_map location st :
  mapInstance st = None → addMarker location st = (Ok (), st).
Proof.
  intros E. destruct st as [mi mks init]. cbn in E. subst mi. reflexivity.
Qed.

Lemma addMarker_wellFormed location st :
  wellFormed st →
  ∃ st', addMarker location st = (Ok (), st') ∧ wellFormed st'.
Proof.
  intros Hwf. destruct (mapInstance st) as [m|] eqn:E.
  - destruct (addMarker_appends location st m E) as [fit ->].
    eexists. split; [reflexivity|].
    unfold wellFormed in *. rewrite E in Hwf. destruct Hwf as [Hr Ha]. cbn.
    split; [exact Hr | by rewrite Ha].
  - rewrite (addMarker_no_map _ _ E). eauto.
Qed.

Lemma onMap_ok op st m m' :
  mapInstance st = Some m → op m = Ok m' → onMap op st = (Ok (), setMap m' st).
Proof. intros E1 E2. unfold onMap. by rewrite E1, E2. Qed.

Lemma removeLayer_route src att fit :
  Map_removeLayer layerId
    {| sources := src; layers := [routeLayer]; attached := att; fitted := fit |}
  = Ok {| sources := src; layers := []; attached := att; fitted := fit |}.
Proof. reflexivity. Qed.

Lemma removeSource_unused src att fit old :
  src !! sourceId = Some old →
  Map_removeSource sourceId
    {| sources := src; layers := []; attached := att; fitted := fit |}
  = Ok {| sources := delete sourceId src; layers := []; attached := att;
          fitted := fit |}.
Proof. intros E. unfold Map_removeSource. cbn [sources]. by rewrite E. Qed.

Lemma addSource_fresh src att fit coords :
  src !! sourceId = None →
  Map_addSource sourceId coords
    {| sources := src; layers := []; attached := att; fitted := fit |}
  = Ok {| sources := <[sourceId := coords]> src; layers := []; attached := att;
          fitted := fit |}.
Proof. intros E. unfold Map_addSource. cbn [sources]. by rewrite E. Qed.

Lemma addLayer_route src att fit coords :
  src !! sourceId = Some coords →
  Map_addLayer routeLayer
    {| sources := src; layers := []; attached := att; fitted := fit |}
  = Ok {| sources := src; layers := [routeLayer]; attached := att; fitted := fit |}.
Proof.
  intros E. unfold Map_addLayer. rewrite getLayer_empty.
  cbn [sources layer_source routeLayer]. by rewrite E.
Qed.

Lemma fitMapToBounds_ok st m :
  mapInstance st = Some m →
  ∃ fit,
    fitMapToBounds st =
      (Ok (), setMap {| sources := sources m; layers := layers m;
                        attached := attached m; fitted := fit |} st).
Proof.
  intros E. destruct st as [mi mks init]. cbn in E. subst mi.
  unfold fitMapToBounds, mbind, Eff_bind, get. cbn.
  destruct mks; cbn; [exists (fitted m); by destruct m | eexists; reflexivity].
Qed.

(** [drawRoute] on two or more locations leaves exactly one route layer
    and one route source, whether or not a route was drawn before. *)
Lemma drawRoute_replaces location1 location2 locations st m :
  mapInstance st = Some m →
  routeConsistent m →
  ∃ fit,
    drawRoute (location1 :: location2 :: locations) st =
      (Ok (),
       {| mapInstance :=
            Some {| sources :=
                      <[sourceId := (λ loc, (lng loc, lat loc)) <$>
                                      (location1 :: location2 :: locations)]> (sources m);
                    layers := [routeLayer];
                    attached := attached m; fitted := fit |};
          markers := markers st;
          isMapInitialized := isMapInitialized st |}).
Proof.
  intros E Hr. destruct st as [mi mks init]. cbn in E. subst mi.
  destruct m as [src lys att fit0]. unfold routeConsistent in Hr. cbn in Hr.
  unfold drawRoute. fold routeLayer.
  erewrite Eff_bind_ok by reflexivity.
  cbn [mapInstance length Nat.ltb Nat.leb].
  set (coords := (λ loc, (lng loc, lat loc)) <$> location1 :: location2 :: locations).
  destruct Hr as [[-> Hs] | [-> [old Hs]]].
  - rewrite getLayer_empty.
    erewrite Eff_bind_ok by reflexivity.
    erewrite Eff_bind_ok
      by (eapply onMap_ok; [reflexivity | by apply addSource_fresh]).
    erewrite Eff_bind_ok
      by (eapply onMap_ok; [reflexivity | by eapply addLayer_route, lookup_insert_eq]).
    edestruct fitMapToBounds_ok as [fit ->]; [reflexivity|].
    eexists. reflexivity.
  - rewrite getLayer_route.
    erewrite Eff_bind_ok; cycle 1.
    { erewrite Eff_bind_ok
        by (eapply onMap_ok; [reflexivity | apply removeLayer_route]).
      eapply onMap_ok; [reflexivity | by eapply removeSource_unused]. }
    erewrite Eff_bind_ok
      by (eapply onMap_ok; [reflexivity | by apply addSource_fresh, lookup_delete_eq]).
    erewrite Eff_bind_ok
      by (eapply onMap_ok; [reflexivity | by eapply addLayer_route, lookup_insert_eq]).
    edestruct fitMapToBounds_ok as [fit ->]; [reflexivity|].
    eexists. cbn. rewrite insert_delete_eq. reflexivity.
Qed.

Lemma drawRoute_short locations st :
  (length locations < 2)%nat → drawRoute locations st = (Ok (), st).
Proof.
  intros Hl. unfold drawRoute, mbind, Eff_bind, get.
  destruct (mapInstance st); [|reflexivity].
  apply Nat.ltb_lt in Hl. by rewrite Hl.
Qed.

Lemma drawRoute_no_map locations st :
  mapInstance st = None → drawRoute locations st = (Ok (), st).
Proof. intros E. unfold drawRoute, mbind, Eff_bind, get. by rewrite E. Qed.

Lemma drawRoute_wellFormed locations st :
  wellFormed st →
  ∃ st', drawRoute locations st = (Ok (), st') ∧ wellFormed st'.
Proof.
  intros Hwf. destruct (mapInstance st) as [m|] eqn:E.
  - destruct locations as [|l1 [|l2 ls]].
    + rewrite drawRoute_short by (cbn; lia). eauto.
    + rewrite drawRoute_short by (cbn; lia). eauto.
    + unfold wellFormed in Hwf. rewrite E in Hwf. destruct Hwf as [Hr Ha].
      destruct (drawRoute_replaces l1 l2 ls st m E Hr) as [fit ->].
      eexists. split; [reflexivity|]. cbn. split; [|exact Ha].
      right. cbn. split; [reflexivity|]. rewrite lookup_insert_eq. eauto.
  - rewrite (drawRoute_no_map _ _ E). eauto.
Qed.

End MapContextFacts.

(** ** The working set of locations on the planning page *)

Module PlanTripFacts.
Import Trip PlanTrip.

Lemma roles_filter ty (l : list Location) :
  type <$> filter (λ loc, type loc ≠ ty) l = filter (λ r, r ≠ ty) (type <$> l).
Proof.
  induction l as [|x l IH]; [reflexivity|].
  rewrite fmap_cons, !filter_cons. destruct (decide (type x ≠ ty)).
  - rewrite fmap_cons. by f_equal.
  - exact IH.
Qed.

Lemma onePerRole_replace (l : list Location) new :
  onePerRole l →
  onePerRole (filter (λ loc, type loc ≠ type new) l ++ [new]).
Proof.
  unfold onePerRole. intros Hnd. rewrite fmap_app, roles_filter.
  apply NoDup_app. split; [by apply NoDup_filter|]. split.
  - intros r Hr Hin. apply list_elem_of_filter in Hr as [Hne _].
    apply list_elem_of_singleton in Hin. contradiction.
  - apply NoDup_singleton.
Qed.

Lemma onePerRole_length (l : list Location) :
  onePerRole l → (length l ≤ 3)%nat.
Proof.
  unfold onePerRole. intros Hnd.
  rewrite <- (length_fmap type l).
  change 3%nat with (length [current; pickup; dropoff]).
  apply submseteq_length, NoDup_submseteq; [exact Hnd|].
  intros r _. rewrite !elem_of_cons. destruct r; auto.
Qed.

Lemma filter_role_absent ty (l : list Location) :
  ty ∉ type <$> l → filter (λ loc, type loc ≠ ty) l = l.
Proof.
  induction l as [|x l IH]; [reflexivity|]. intros Hn.
  rewrite fmap_cons, not_elem_of_cons in Hn. destruct Hn as [Hx Hl].
  rewrite filter_cons_True by congruence. by rewrite IH.
Qed.

Lemma replace_keeps_length (l : list Location) new :
  onePerRole l → type new ∈ type <$> l →
  length (filter (λ loc, type loc ≠ type new) l ++ [new]) = length l.
Proof.
  unfold onePerRole. induction l as [|x l IH]; intros Hnd Hin.
  - by apply elem_of_nil in Hin.
  - rewrite fmap_cons in Hnd, Hin. apply NoDup_cons in Hnd as [Hx Hnd].
    destruct (decide (type x = type new)) as [E|N].
    + rewrite filter_cons_False by (intros ?; congruence).
      rewrite filter_role_absent by (by rewrite <- E).
      rewrite length_app. cbn. lia.
    + rewrite filter_cons_True by exact N.
      apply elem_of_cons in Hin as [Hin|Hin]; [congruence|].
      cbn. f_equal. by apply IH.
Qed.

Lemma only_new_has_role (l : list Location) new :
  filter (λ loc, type loc = type new)
    (filter (λ loc, type loc ≠ type new) l ++ [new]) = [new].
Proof.
  rewrite filter_app.
  assert (filter (λ loc, type loc = type new)
            (filter (λ loc, type loc ≠ type new) l) = []) as ->.
  { induction l as [|x l IH]; [reflexivity|].
    rewrite filter_cons. destruct (decide (type x ≠ type new)); [|exact IH].
    by rewrite filter_cons_False. }
  by rewrite filter_cons_True.
Qed.

Lemma zoom_ok {S T A} (proj : S → T) (inj : T → S → S) (m : Eff T A) st r t :
  m (proj st) = (r, t) → zoom proj inj m st = (r, inj t st).
Proof. intros E. unfold zoom. by rewrite E. Qed.

(** Storing the address text touches neither the map nor the locations. *)
Lemma setText_ok ty address st :
  ∃ st',
    match ty with
    | current => setCurrentLocation address
    | pickup => setPickupLocation address
    | dropoff => setDropoffLocation address
    end st = (Ok (), st') ∧
    map st' = map st ∧ mapLocations st' = mapLocations st.
Proof. destruct ty; eexists; (split; [reflexivity|]); split; reflexivity. Qed.

(** On a well-formed map a selection with coordinates never throws, and
    the new list is the old one without the role, followed by the new
    location. *)
Lemma handleLocationChange_ok ty address la ln st :
  MapContext.wellFormed (map st) →
  ∃ st',
    handleLocationChange ty address (Some (la, ln)) st = (Ok (), st') ∧
    mapLocations st' =
      filter (λ loc, type loc ≠ ty) (mapLocations st) ++
        [{| lat := la; lng := ln; address := address; type := ty |}] ∧
    MapContext.wellFormed (map st').
Proof.
  intros Hwf. unfold handleLocationChange.
  destruct (setText_ok ty address st) as (st1 & E1 & Hm1 & Hl1).
  erewrite Eff_bind_ok by exact E1.
  set (new := {| lat := la; lng := ln; address := address; type := ty |}).
  rewrite <- Hm1 in Hwf.
  destruct (MapContextFacts.addMarker_wellFormed new (map st1) Hwf)
    as (ms2 & E2 & Hwf2).
  erewrite Eff_bind_ok by (unfold addMarker; eapply zoom_ok; exact E2).
  erewrite Eff_bind_ok by reflexivity.
  cbn [mapLocations setMap]. rewrite Hl1.
  set (updated := filter (λ loc, type loc ≠ ty) (mapLocations st) ++ [new]).
  destruct (2 <=? length updated)%nat.
  - destruct (MapContextFacts.drawRoute_wellFormed updated ms2 Hwf2)
      as (ms3 & E3 & Hwf3).
    erewrite Eff_bind_ok by (unfold drawRoute; eapply zoom_ok; exact E3).
    eexists. split; [reflexivity|]. split; [reflexivity|]. exact Hwf3.
  - erewrite Eff_bind_ok by reflexivity.
    eexists. split; [reflexivity|]. split; [reflexivity|]. exact Hwf2.
Qed.

Lemma handleLocationChange_text_only ty address st :
  ∃ st',
    handleLocationChange ty address None st = (Ok (), st') ∧
    map st' = map st ∧ mapLocations st' = mapLocations st.
Proof.
  unfold handleLocationChange.
  destruct (setText_ok ty address st) as (st1 & E1 & Hm1 & Hl1).
  erewrite Eff_bind_ok by exact E1. eauto.
Qed.

Section WithHost.
Context `{DateHost}.

(** The rest of a submission touches neither the map nor the locations. *)
Lemma runTask_frame t st :
  map (runTask t st).2 = map st ∧ mapLocations (runTask t st).2 = mapLocations st.
Proof.
  destruct t as [c p d h locs | path]; [|split; reflexivity].
  unfold runTask, handlePlanTrip_resume, try_catch_finally, newDate, liftR,
    Date_toISOString, mbind, Eff_bind, get, mret, Eff_ret.
  cbn. destruct (TimeClip (clock st)); split; reflexivity.
Qed.

(** The invariant of the page: the map provider is well formed and the
    working set holds at most one location of each role. *)
Lemma step_invariant e st :
  MapContext.wellFormed (map st) → onePerRole (mapLocations st) →
  MapContext.wellFormed (map (step e st).2) ∧ onePerRole (mapLocations (step e st).2).
Proof.
  intros Hwf Hone. destruct e as [container | ty address [[la ln]|] | v | | | ms | i].
  - destruct (MapContextFacts.initMap_wellFormed container (map st) Hwf)
      as (ms' & E & Hwf').
    cbn [step]. unfold initMap. rewrite (zoom_ok _ _ _ _ _ _ E). by split.
  - destruct (handleLocationChange_ok ty address la ln st Hwf) as (st' & E & Hl & Hwf').
    cbn [step]. rewrite E. cbn. split; [exact Hwf'|]. rewrite Hl.
    by apply (onePerRole_replace _ {| lat := la; lng := ln; address := address;
                                      type := ty |}).
  - destruct (handleLocationChange_text_only ty address st) as (st' & E & Hm & Hl).
    cbn [step]. rewrite E. cbn. by rewrite Hm, Hl.
  - by split.
  - cbn [step]. unfold mbind, Eff_bind, get. destruct (isCalculating st); [by split|].
    unfold handlePlanTrip, mbind, Eff_bind, get.
    destruct (_ || _); by split.
  - split; [exact Hwf|]. apply NoDup_nil_2.
  - by split.
  - cbn [step]. unfold mbind, Eff_bind, get.
    destruct (timers st !! i) as [tm|]; [|by split].
    destruct (due tm <=? clock st)%Z; [|by split].
    cbn. destruct (runTask_frame (task tm)
      {| currentLocation := currentLocation st; pickupLocation := pickupLocation st;
         dropoffLocation := dropoffLocation st; cycleHours := cycleHours st;
         mapLocations := mapLocations st; isCalculating := isCalculating st;
         map := map st; browser := browser st; clock := clock st;
         timers := delete i (timers st) |}) as [-> ->].
    by split.
Qed.

Lemma runEvents_invariant evs st :
  MapContext.wellFormed (map st) → onePerRole (mapLocations st) →
  MapContext.wellFormed (map (runEvents evs st)) ∧
  onePerRole (mapLocations (runEvents evs st)).
Proof.
  revert st. induction evs as [|e evs IH]; intros st Hwf Hone; [by split|].
  cbn. destruct (step_invariant e st Hwf Hone) as [Hwf' Hone']. by apply IH.
Qed.

End WithHost.
End PlanTripFacts.

Module PlanTripClaims.
Import Trip PlanTrip PlanTripFacts.

(** C6. After every sequence of events on the planning page the working
    set holds at most one location of each role (hence at most three), and
    a further selection with coordinates for a role never throws and
    yields the old set without that role followed by the new location: the
    new location is the only one of its role, the set keeps its size when
    the role was there already, and grows by the new location otherwise. *)
Theorem mapLocations_one_per_role `{DateHost} (evs : list Event) (b : Browser) (now : Z) :
  let st := runEvents evs (initial b now) in
  onePerRole (mapLocations st) ∧
  (length (mapLocations st) ≤ 3)%nat ∧
  ∀ ty address la ln,
    let new := {| lat := la; lng := ln; address := address; type := ty |} in
    ∃ st',
      handleLocationChange ty address (Some (la, ln)) st = (Ok (), st') ∧
      mapLocations st' = filter (λ loc, type loc ≠ ty) (mapLocations st) ++ [new] ∧
      filter (λ loc, type loc = ty) (mapLocations st') = [new] ∧
      onePerRole (mapLocations st') ∧
      (ty ∈ type <$> mapLocations st →
         length (mapLocations st') = length (mapLocations st)) ∧
      (ty ∉ type <$> mapLocations st →
         mapLocations st' = mapLocations st ++ [new]).
Proof.
  intros st.
  destruct (runEvents_invariant evs (initial b now)) as [Hwf Hone];
    [reflexivity | apply NoDup_nil_2 |].
  fold st in Hwf, Hone.
  split; [exact Hone|]. split; [by apply onePerRole_length|].
  intros ty address la ln new.
  destruct (handleLocationChange_ok ty address la ln st Hwf) as (st' & E & Hl & _).
  exists st'. split; [exact E|]. split; [exact Hl|]. rewrite Hl.
  split; [apply (only_new_has_role _ new)|].
  split; [by apply (onePerRole_replace _ new)|].
  split.
  - intros Hin. by apply (replace_keeps_length _ new).
  - intros Hn. by rewrite filter_role_absent.
Qed.

Lemma mapLocations_one_per_role_witness :
  let st := @runEvents utcHost
              [MapMounted true;
               LocationChange pickup "Depot A" (Some (40%Q, (-74)%Q));
               LocationChange current "Yard" (Some (39%Q, (-76)%Q))]
              (initial Samples.browser0 0) in
  pickup ∈ type <$> mapLocations st ∧
  ∃ st',
    handleLocationChange pickup "Depot B" (Some (41%Q, (-75)%Q)) st = (Ok (), st') ∧
    length (mapLocations st') = length (mapLocations st).
Proof.
  intros st.
  assert (pickup ∈ type <$> mapLocations st) as Hin by (vm_compute; left).
  split; [exact Hin|].
  destruct (@mapLocations_one_per_role utcHost
              [MapMounted true;
               LocationChange pickup "Depot A" (Some (40%Q, (-74)%Q));
               LocationChange current "Yard" (Some (39%Q, (-76)%Q))]
              Samples.browser0 0) as (_ & _ & Hsel).
  destruct (Hsel pickup "Depot B" 41%Q (-75)%Q) as (st' & E & _ & _ & _ & Hlen & _).
  exists st'. split; [exact E | exact (Hlen Hin)].
Defined.

(** C8. Selecting a pickup location twice on a mounted map: the working
    set holds the second location only, but the provider's [addMarker]
    removed nothing, so both pickup markers are in its list and attached
    to the map. *)
Theorem addMarker_leaves_prior_marker :
  let st := @runEvents utcHost
              [MapMounted true;
               LocationChange pickup "Depot A" (Some (40%Q, (-74)%Q));
               LocationChange pickup "Depot B" (Some (41%Q, (-75)%Q))]
              (initial Samples.browser0 0) in
  let markerA := {| MapContext.color := "#ffc107"; MapContext.lngLat := ((-74)%Q, 40%Q) |} in
  let markerB := {| MapContext.color := "#ffc107"; MapContext.lngLat := ((-75)%Q, 41%Q) |} in
  mapLocations st =
    [{| lat := 41; lng := -75; address := "Depot B"; type := pickup |}] ∧
  MapContext.markers (map st) = [markerA; markerB] ∧
  MapContext.attached <$> MapContext.mapInstance (map st) = Some [markerA; markerB] ∧
  MapContext.markersOf pickup (MapContext.markers (map st)) = [markerA; markerB].
Proof. vm_compute. repeat split. Qed.

End PlanTripClaims.

(** ** Submitting the trip *)

Module PlanTripSubmit.
Import Trip PlanTrip.

Lemma truthy_false s : truthy s = false ↔ s = "".
Proof. destruct s; cbn; split; congruence. Qed.

Lemma truthy_true s : truthy s = true ↔ s ≠ "".
Proof. destruct s; cbn; split; congruence. Qed.

Lemma some_empty st :
  negb (truthy (currentLocation st)) || negb (truthy (pickupLocation st))
    || negb (truthy (dropoffLocation st)) = true ↔
  currentLocation st = "" ∨ pickupLocation st = "" ∨ dropoffLocation st = "".
Proof.
  rewrite !orb_true_iff, !negb_true_iff, !truthy_false. tauto.
Qed.

(** With the three texts filled in, the click starts the calculation and
    leaves the rest of the handler on a 2000 ms timer. *)
Lemma handlePlanTrip_accepts st :
  currentLocation st ≠ "" → pickupLocation st ≠ "" → dropoffLocation st ≠ "" →
  handlePlanTrip st =
    (Ok (),
     {| currentLocation := currentLocation st; pickupLocation := pickupLocation st;
        dropoffLocation := dropoffLocation st; cycleHours := cycleHours st;
        mapLocations := mapLocations st; isCalculating := true;
        map := map st; browser := browser st; clock := clock st;
        timers := timers st ++
          [{| due := clock st + 2000;
              task := PlanTripResume (currentLocation st) (pickupLocation st)
                        (dropoffLocation st) (cycleHours st) (mapLocations st) |}] |}).
Proof.
  intros Hc Hp Hd. apply truthy_true in Hc, Hp, Hd.
  unfold handlePlanTrip, mbind, Eff_bind, get. rewrite Hc, Hp, Hd. reflexivity.
Qed.

Section WithHost.
Context `{DateHost}.

(** The rest of the handler, run at a representable instant: the success
    notice, the record written to [currentTrip], the navigation on a
    1000 ms timer, and the flag reset. *)
Lemma handlePlanTrip_resume_ok c p d h locs st :
  (Z.abs (clock st) ≤ maxTime)%Z →
  handlePlanTrip_resume c p d h locs st =
    (Ok (),
     {| currentLocation := currentLocation st; pickupLocation := pickupLocation st;
        dropoffLocation := dropoffLocation st; cycleHours := cycleHours st;
        mapLocations := mapLocations st; isCalculating := false;
        map := map st;
        browser :=
          Browser_setItem "currentTrip"
            {| Trip.currentLocation := c; Trip.pickupLocation := p;
               Trip.dropoffLocation := d; Trip.cycleHours := h;
               Trip.mapLocations := locs;
               Trip.plannedAt := toISOString (clock st) |}
            (Browser_toast
               {| title := "Trip Planned Successfully";
                  description :=
                    "ELD logs and route have been calculated. Redirecting to review...";
                  variant := None |}
               (browser st));
        clock := clock st;
        timers := timers st ++ [{| due := clock st + 1000; task := NavigateTask "/logs" |}]
     |}).
Proof.
  intros Hr.
  unfold handlePlanTrip_resume, try_catch_finally, newDate, liftR, Date_toISOString,
    mbind, Eff_bind, get, mret, Eff_ret.
  cbn. unfold TimeClip. apply Z.leb_le in Hr. rewrite Hr. reflexivity.
Qed.

(** Outside the range of [Date] the printing throws; the handler reports
    a planning error, writes nothing and resets the flag. *)
Lemma handlePlanTrip_resume_error c p d h locs st :
  (maxTime < Z.abs (clock st))%Z →
  handlePlanTrip_resume c p d h locs st =
    (Ok (),
     {| currentLocation := currentLocation st; pickupLocation := pickupLocation st;
        dropoffLocation := dropoffLocation st; cycleHours := cycleHours st;
        mapLocations := mapLocations st; isCalculating := false;
        map := map st;
        browser :=
          Browser_toast
            {| title := "Planning Error";
               description :=
                 "Failed to calculate trip. Please check your inputs and try again.";
               variant := Some "destructive" |}
            (Browser_toast
               {| title := "Trip Planned Successfully";
                  description :=
                    "ELD logs and route have been calculated. Redirecting to review...";
                  variant := None |}
               (browser st));
        clock := clock st; timers := timers st |}).
Proof.
  intros Hr.
  unfold handlePlanTrip_resume, try_catch_finally, newDate, liftR, Date_toISOString,
    mbind, Eff_bind, get, mret, Eff_ret.
  cbn. unfold TimeClip. apply Z.leb_gt in Hr. rewrite Hr. reflexivity.
Qed.

Lemma fire_due i tm st :
  timers st !! i = Some tm → (due tm ≤ clock st)%Z →
  step (TimerFires i) st =
    runTask (task tm)
      {| currentLocation := currentLocation st; pickupLocation := pickupLocation st;
         dropoffLocation := dropoffLocation st; cycleHours := cycleHours st;
         mapLocations := mapLocations st; isCalculating := isCalculating st;
         map := map st; browser := browser st; clock := clock st;
         timers := delete i (timers st) |}.
Proof.
  intros E Hd. cbn [step]. unfold mbind, Eff_bind, get. rewrite E.
  apply Z.leb_le in Hd. rewrite Hd. reflexivity.
Qed.

Lemma fire_early i tm st :
  timers st !! i = Some tm → (clock st < due tm)%Z →
  step (TimerFires i) st = (Ok (), st).
Proof.
  intros E Hd. cbn [step]. unfold mbind, Eff_bind, get. rewrite E.
  apply Z.leb_gt in Hd. rewrite Hd. reflexivity.
Qed.

End WithHost.
End PlanTripSubmit.

Module PlanTripSubmitClaims.
Import Trip PlanTrip PlanTripSubmit.

(** C2. A click on "Plan Trip" is rejected, which means that its whole
    effect is the destructive notice "Missing Information" (nothing is
    written to local storage and no timer is left), if and only if one of
    the three address texts is empty.  With the three texts non-empty and
    the cycle hours in [0, 70], the click changes nothing in the browser
    and leaves one timer due 2000 ms later; that timer does nothing before
    it is due, and when it fires (the clock showing a representable
    instant) it writes exactly the slot [currentTrip], with a record whose
    texts, cycle hours and locations are those of the click and whose
    [plannedAt] is the ISO text of the firing instant, which is after the
    click and which the host reads back whenever it reads what it prints. *)
Theorem handlePlanTrip_submit `{DateHost} (st : State) :
  let notice :=
    {| title := "Missing Information";
       description := "Please fill in all location fields before planning the trip.";
       variant := Some "destructive" |} in
  let rejected :=
    {| currentLocation := currentLocation st; pickupLocation := pickupLocation st;
       dropoffLocation := dropoffLocation st; cycleHours := cycleHours st;
       mapLocations := mapLocations st; isCalculating := isCalculating st;
       map := map st;
       browser := {| localStorage := localStorage (browser st);
                     toasts := toasts (browser st) ++ [notice];
                     navigated := navigated (browser st) |};
       clock := clock st; timers := timers st |} in
  ((currentLocation st = "" ∨ pickupLocation st = "" ∨ dropoffLocation st = "") ↔
     handlePlanTrip st = (Ok (), rejected)) ∧
  (currentLocation st ≠ "" → pickupLocation st ≠ "" → dropoffLocation st ≠ "" →
   (0 <= cycleHours st <= 70)%Q →
   let tm := {| due := clock st + 2000;
                task := PlanTripResume (currentLocation st) (pickupLocation st)
                          (dropoffLocation st) (cycleHours st) (mapLocations st) |} in
   ∃ st1,
     handlePlanTrip st = (Ok (), st1) ∧
     browser st1 = browser st ∧
     timers st1 = timers st ++ [tm] ∧
     ∀ st2 i,
       timers st2 !! i = Some tm →
       ((clock st2 < due tm)%Z → step (TimerFires i) st2 = (Ok (), st2)) ∧
       ((due tm ≤ clock st2)%Z → (Z.abs (clock st2) ≤ maxTime)%Z →
        ∃ st3 record,
          step (TimerFires i) st2 = (Ok (), st3) ∧
          localStorage (browser st3) =
            <["currentTrip" := record]> (localStorage (browser st2)) ∧
          Trip.currentLocation record = currentLocation st ∧
          Trip.pickupLocation record = pickupLocation st ∧
          Trip.dropoffLocation record = dropoffLocation st ∧
          Trip.cycleHours record = cycleHours st ∧
          Trip.mapLocations record = mapLocations st ∧
          Trip.plannedAt record = toISOString (clock st2) ∧
          (clock st < clock st2)%Z ∧
          (Date_parse (toISOString (clock st2)) = Some (clock st2) →
           Date_parse (Trip.plannedAt record) = Some (clock st2)))).
Proof.
  intros notice rejected. split.
  - split.
    + intros He. apply some_empty in He.
      unfold handlePlanTrip, mbind, Eff_bind, get. rewrite He. reflexivity.
    + intros E.
      destruct (decide (currentLocation st = "")) as [|Hc]; [tauto|].
      destruct (decide (pickupLocation st = "")) as [|Hp]; [tauto|].
      destruct (decide (dropoffLocation st = "")) as [|Hd]; [tauto|].
      rewrite (handlePlanTrip_accepts st Hc Hp Hd) in E.
      apply (f_equal (λ r, length (timers r.2))) in E. cbn in E.
      rewrite length_app in E. cbn in E. lia.
  - intros Hc Hp Hd _ tm. eexists. split; [by apply handlePlanTrip_accepts|].
    split; [reflexivity|]. split; [reflexivity|].
    intros st2 i Ht. split; [by apply fire_early|].
    intros Hdue Hrep.
    rewrite (fire_due i tm st2 Ht Hdue). cbn [task tm runTask].
    rewrite handlePlanTrip_resume_ok by exact Hrep.
    do 2 eexists. split; [reflexivity|]. cbn.
    repeat split; [cbn in Hdue; lia | auto].
Qed.

Lemma handlePlanTrip_submit_witness :
  let st :=
    {| currentLocation := "A"; pickupLocation := "B"; dropoffLocation := "C";
       cycleHours := 35.5; mapLocations := []; isCalculating := false;
       map := MapContext.initial; browser := Samples.browser0;
       clock := 1704067200000; timers := [] |} in
  let tm := {| due := 1704067202000; task := PlanTripResume "A" "B" "C" 35.5 [] |} in
  let st2 :=
    {| currentLocation := "A"; pickupLocation := "B"; dropoffLocation := "C";
       cycleHours := 35.5; mapLocations := []; isCalculating := true;
       map := MapContext.initial; browser := Samples.browser0;
       clock := 1704067202017; timers := [tm] |} in
  (currentLocation st ≠ "" ∧ pickupLocation st ≠ "" ∧ dropoffLocation st ≠ "" ∧
   (0 <= cycleHours st <= 70)%Q ∧ timers st2 !! 0%nat = Some tm ∧
   (due tm ≤ clock st2)%Z ∧ (Z.abs (clock st2) ≤ maxTime)%Z ∧
   @Date_parse utcHost (@toISOString utcHost (clock st2)) = Some (clock st2)) ∧
  ∃ st3 record,
    @step utcHost (TimerFires 0) st2 = (Ok (), st3) ∧
    localStorage (browser st3) !! "currentTrip" = Some record ∧
    Trip.plannedAt record = "2024-01-01T00:00:02.017Z" ∧
    @Date_parse utcHost (Trip.plannedAt record) = Some 1704067202017%Z.
Proof.
  intros st tm st2.
  assert (currentLocation st ≠ "") as Hc by discriminate.
  assert (pickupLocation st ≠ "") as Hp by discriminate.
  assert (dropoffLocation st ≠ "") as Hd by discriminate.
  assert (0 <= cycleHours st <= 70)%Q as Hh by (split; vm_compute; discriminate).
  assert (timers st2 !! 0%nat = Some tm) as Ht by reflexivity.
  assert (due tm ≤ clock st2)%Z as Hdue by (vm_compute; discriminate).
  assert (Z.abs (clock st2) ≤ maxTime)%Z as Hrep by (vm_compute; discriminate).
  assert (@Date_parse utcHost (@toISOString utcHost (clock st2)) = Some (clock st2))
    as Hiso by (vm_compute; reflexivity).
  split; [repeat split; assumption|].
  destruct (@handlePlanTrip_submit utcHost st) as [_ Hsubmit].
  destruct (Hsubmit Hc Hp Hd Hh) as (st1 & _ & _ & _ & Hfire).
  destruct (Hfire st2 0%nat Ht) as [_ Hwrite].
  destruct (Hwrite Hdue Hrep)
    as (st3 & record & E & Hs & _ & _ & _ & _ & _ & Hat & _ & Hparse).
  exists st3, record. split; [exact E|].
  split; [rewrite Hs; apply lookup_insert_eq|].
  split; [rewrite Hat; vm_compute; reflexivity|].
  exact (Hparse Hiso).
Defined.

End PlanTripSubmitClaims.

(** ** From the planning page to the review page *)

Module PlannedTripReview.

(** On the UTC host, between 1970 and 9999, the record that the rest of
    [handlePlanTrip] writes is one the log generator accepts. *)
Lemma planned_trip_is_reviewable c p d h locs (st : PlanTrip.State) :
  (0 ≤ PlanTrip.clock st < 253402300800000)%Z →
  ∃ st' record,
    @PlanTrip.handlePlanTrip_resume utcHost c p d h locs st = (Ok (), st') ∧
    localStorage (PlanTrip.browser st') !! "currentTrip" = Some record ∧
    @ReviewLogs.plannedAt_ok utcHost record.
Proof.
  intros Ht.
  rewrite PlanTripSubmit.handlePlanTrip_resume_ok by (unfold maxTime; lia).
  do 2 eexists. split; [reflexivity|]. cbn. split; [apply lookup_insert_eq|].
  eapply UtcHostFacts.utc_plannedAt_ok; [exact Ht | reflexivity].
Qed.

End PlannedTripReview.

(** ** Debounced suggestions *)

Module LocationInputClaims.
Import LocationInput.

(** The pending timeout, if any, carries the latest text: newer input
    supersedes a query that has not been issued yet. *)
Lemma pending_is_latest (evs : list Event) (v0 : string) :
  let st := run evs (mounted v0) in
  handler st = None ∨ handler st = Some (value st).
Proof.
  cbn zeta.
  assert (handler (mounted v0) = None ∨ handler (mounted v0) = Some (value (mounted v0)))
    as Hmounted.
  { unfold mounted, useEffect. cbn [debouncedValue].
    destruct (2 <? _)%nat; right; reflexivity. }
  revert Hmounted. generalize (mounted v0).
  induction evs as [|e evs IH]; intros st Hst; [exact Hst|].
  cbn. apply IH. clear IH evs.
  assert (∀ v st, (handler st = None ∨ handler st = Some (value st)) →
            handler (setValue v st) = None ∨
            handler (setValue v st) = Some (value (setValue v st))) as Hset.
  { intros v s Hs. unfold setValue. destruct (decide (v = value s)); [exact Hs|].
    right. reflexivity. }
  destruct e as [v | | n r | s |]; cbn [step].
  - by apply Hset.
  - unfold timeout. destruct (handler st) as [v|] eqn:Eh; [|left; exact Eh].
    destruct (decide (v = debouncedValue st)); [by left|].
    unfold useEffect. cbn [debouncedValue]. destruct (2 <? _)%nat; cbn; by left.
  - unfold fetchSuggestions_resume. destruct (bool_decide _); [|exact Hst].
    destruct r; exact Hst.
  - unfold handleSuggestionClick. cbn. by apply Hset.
  - unfold clearInput. cbn. by apply Hset.
Qed.

(** C9 as stated fails: with the query for "abc" superseded by the one for
    "abcd", whose response has arrived, the late response to "abc" still
    replaces the suggestions. *)
Lemma stale_response_overwrites :
  let boston := {| place_name := "Boston Ave"; center := ((-71)%Q, 42%Q) |} in
  let albany := {| place_name := "Albany St"; center := ((-73)%Q, 42%Q) |} in
  let st := run [Typed "abc"; Timeout; Typed "abcd"; Timeout;
                 Responded 1 (Features [boston])] (mounted "") in
  superseded 0 st ∧
  suggestions st = [boston] ∧
  suggestions (step (Responded 0 (Features [albany])) st) = [albany] ∧
  ¬ staleDiscarded st.
Proof.
  intros boston albany st.
  assert (superseded 0 st) as Hs.
  { split; [vm_compute; left | vm_compute; lia]. }
  split; [exact Hs|]. split; [reflexivity|]. split; [reflexivity|].
  intros Hd. specialize (Hd 0%nat (Features [albany]) Hs). discriminate Hd.
Qed.

(** C9, amended. Whatever the state and whichever request in flight a
    response belongs to, superseded or not, the response is applied when
    it arrives: its features become the suggestions and the list is shown,
    or, for a failure, the suggestions are emptied; the last response to
    arrive wins.  New input supersedes only the pending timeout. *)
Theorem response_applied_on_arrival (st : State) (n : nat) :
  n ∈ seq <$> inFlight st →
  (∀ fs, suggestions (fetchSuggestions_resume n (Features fs) st) = fs ∧
         showSuggestions (fetchSuggestions_resume n (Features fs) st) = true) ∧
  suggestions (fetchSuggestions_resume n Failure st) = [] ∧
  (∀ r, n ∉ seq <$> inFlight (fetchSuggestions_resume n r st)) ∧
  (∀ v, v ≠ value st →
        handler (setValue v st) = Some v ∧
        inFlight (setValue v st) = inFlight st ∧
        suggestions (setValue v st) = suggestions st).
Proof.
  intros Hin. unfold fetchSuggestions_resume.
  rewrite (bool_decide_eq_true_2 _ Hin).
  split; [intros fs; split; reflexivity|]. split; [reflexivity|]. split.
  - intros r Hn.
    assert (n ∈ seq <$> filter (λ rq, seq rq ≠ n) (inFlight st)) as Hf
      by (destruct r; exact Hn).
    apply list_elem_of_fmap in Hf as (rq & -> & Hrq).
    apply list_elem_of_filter in Hrq as [Hne _]. by apply Hne.
  - intros v Hv. unfold setValue. destruct (decide (v = value st)); [contradiction|].
    repeat split.
Qed.

Lemma response_applied_on_arrival_witness :
  let albany := {| place_name := "Albany St"; center := ((-73)%Q, 42%Q) |} in
  let st := run [Typed "abc"; Timeout; Typed "abcd"; Timeout] (mounted "") in
  0%nat ∈ seq <$> inFlight st ∧
  suggestions (fetchSuggestions_resume 0 (Features [albany]) st) = [albany].
Proof.
  intros albany st.
  assert (0%nat ∈ seq <$> inFlight st) as Hin by (vm_compute; left).
  split; [exact Hin|].
  destruct (response_applied_on_arrival st 0 Hin) as [Happ _].
  exact (proj1 (Happ [albany])).
Defined.

End LocationInputClaims.

(** ** The actions of the review page *)

Module ReviewLogsPageFacts.
Import Trip ReviewLogs ReviewLogsPage.

Lemma previousDay_index st :
  currentLogIndex (previousDay st).2 = Z.max 0 (currentLogIndex st - 1) ∧
  tripData (previousDay st).2 = tripData st ∧
  eldLogs (previousDay st).2 = eldLogs st ∧
  isGeneratingPDF (previousDay st).2 = isGeneratingPDF st ∧
  browser (previousDay st).2 = browser st.
Proof. repeat split. Qed.

Lemma nextDay_index st :
  currentLogIndex (nextDay st).2 =
    Z.min (Z.of_nat (length (eldLogs st)) - 1) (currentLogIndex st + 1) ∧
  tripData (nextDay st).2 = tripData st ∧
  eldLogs (nextDay st).2 = eldLogs st ∧
  isGeneratingPDF (nextDay st).2 = isGeneratingPDF st ∧
  browser (nextDay st).2 = browser st.
Proof. repeat split. Qed.

(** What no action of the page changes, and what each keeps true. *)
Lemma step_keeps e p :
  tripData (state (step e p)) = tripData (state p) ∧
  eldLogs (state (step e p)) = eldLogs (state p) ∧
  localStorage (browser (state (step e p))) = localStorage (browser (state p)) ∧
  (indexInRange (state p) → indexInRange (state (step e p))) ∧
  (printPending p → printPending (step e p)).
Proof.
  destruct p as [[td logs idx gen br] n].
  unfold indexInRange, printPending.
  destruct e; cbn [step state pdfTimers];
    cbv [onState previousDay nextDay handleGeneratePDF handleGeneratePDF_resume
         handleShareLogs handleEditTrip toast navigate withBrowser setCurrentLogIndex
         setIsGeneratingPDF try_catch_finally mbind Eff_bind get modify liftR].
  - destruct (_ && _); cbn; (do 3 (split; [reflexivity|])); (split; [intros ?; lia | done]).
  - destruct (_ && _); cbn; (do 3 (split; [reflexivity|])); (split; [intros ?; lia | done]).
  - destruct (_ && negb _) eqn:E; cbn; (do 3 (split; [reflexivity|]));
      (split; [done|]); [|done].
    apply andb_true_iff in E as [_ Hg]. apply negb_true_iff in Hg. cbn in Hg. subst gen.
    intros [[_ Hn] Hle]. destruct n as [|[|n]]; [done| |lia]. by specialize (Hn eq_refl).
  - destruct n as [|n]; cbn; (do 3 (split; [reflexivity|])); (split; [done|]); [done|].
    intros [_ Hle]. assert (n = 0%nat) as -> by lia. split; [split; discriminate | lia].
  - destruct (rendered _); cbn; (do 3 (split; [reflexivity|])); (split; done).
  - destruct (rendered _); cbn; (do 3 (split; [reflexivity|])); (split; done).
Qed.

Lemma run_keeps evs p :
  tripData (state (run evs p)) = tripData (state p) ∧
  eldLogs (state (run evs p)) = eldLogs (state p) ∧
  localStorage (browser (state (run evs p))) = localStorage (browser (state p)) ∧
  (indexInRange (state p) → indexInRange (state (run evs p))) ∧
  (printPending p → printPending (run evs p)).
Proof.
  revert p. induction evs as [|e evs IH]; intros p;
    [do 3 (split; [reflexivity|]); split; done|].
  change (run (e :: evs) p) with (run evs (step e p)).
  destruct (IH (step e p)) as (-> & -> & -> & Hi & Hp).
  destruct (step_keeps e p) as (-> & -> & -> & Hi' & Hp').
  do 3 (split; [reflexivity|]). split; auto.
Qed.

Lemma currentLog_in_range st : indexInRange st → is_Some (currentLog st).
Proof.
  unfold indexInRange, currentLog. intros [Hl Hu].
  rewrite (proj2 (Z.ltb_ge _ _) Hl). apply lookup_lt_is_Some. lia.
Qed.

(** X1. Whatever is clicked on the review page, in whatever order, a day
    index that is a position of the log list stays one, so the log shown
    ([eldLogs[currentLogIndex]]) is always defined; "Previous Day" moves
    back by one day and stops at the first, "Next Day" moves on by one day
    and stops at the last. *)
Theorem day_index_stays_in_range (evs : list Event) (p : Page) :
  indexInRange (state p) →
  indexInRange (state (run evs p)) ∧
  is_Some (currentLog (state (run evs p))) ∧
  currentLogIndex (previousDay (state p)).2 =
    (if (currentLogIndex (state p) =? 0)%Z then 0 else currentLogIndex (state p) - 1)%Z ∧
  currentLogIndex (nextDay (state p)).2 =
    (if (currentLogIndex (state p) =? Z.of_nat (length (eldLogs (state p))) - 1)%Z
     then currentLogIndex (state p) else currentLogIndex (state p) + 1)%Z.
Proof.
  intros Hin. destruct (run_keeps evs p) as (_ & _ & _ & Hi & _).
  split; [by apply Hi|]. split; [by apply currentLog_in_range, Hi|].
  unfold indexInRange in Hin.
  rewrite (proj1 (previousDay_index (state p))), (proj1 (nextDay_index (state p))).
  split.
  - destruct (Z.eqb_spec (currentLogIndex (state p)) 0); lia.
  - destruct (Z.eqb_spec (currentLogIndex (state p))
                (Z.of_nat (length (eldLogs (state p))) - 1)); lia.
Qed.

Lemma day_index_stays_in_range_witness :
  let p := {| state := {| tripData := Some Samples.trip;
                          eldLogs := logsFor Samples.trip "2024-01-01" "2024-01-02"
                                       "2024-01-03";
                          currentLogIndex := 0; isGeneratingPDF := false;
                          browser := Samples.browser0 |};
              pdfTimers := 0 |} in
  indexInRange (state p) ∧
  currentLogIndex (state (run [NextDayClicked; NextDayClicked; NextDayClicked;
                               PreviousDayClicked] p)) = 1%Z ∧
  indexInRange (state (run [NextDayClicked; NextDayClicked; NextDayClicked;
                            PreviousDayClicked] p)).
Proof.
  intros p.
  assert (indexInRange (state p)) as Hin by (vm_compute; split; [discriminate|reflexivity]).
  split; [exact Hin|]. split; [reflexivity|].
  exact (proj1 (day_index_stays_in_range
                  [NextDayClicked; NextDayClicked; NextDayClicked; PreviousDayClicked]
                  p Hin)).
Defined.

(** X2. The actions of the review page (paging, print, share, edit) never
    change the trip shown, the generated logs or the local storage, and
    the print flag is set exactly while the timer of a print is pending:
    a click on the disabled button starts no second print, and the timer
    resets the flag. *)
Theorem review_actions_keep_trip_and_logs (evs : list Event) (p : Page) :
  printPending p →
  tripData (state (run evs p)) = tripData (state p) ∧
  eldLogs (state (run evs p)) = eldLogs (state p) ∧
  localStorage (browser (state (run evs p))) = localStorage (browser (state p)) ∧
  (isGeneratingPDF (state (run evs p)) = true ↔ pdfTimers (run evs p) = 1%nat) ∧
  (pdfTimers (run evs p) ≤ 1)%nat.
Proof.
  intros Hp. destruct (run_keeps evs p) as (Ht & Hl & Hs & _ & Hp').
  destruct (Hp' Hp) as [Hiff Hle]. repeat split; try assumption; apply Hiff.
Qed.

Lemma review_actions_keep_trip_and_logs_witness :
  let p := {| state := {| tripData := Some Samples.trip;
                          eldLogs := logsFor Samples.trip "2024-01-01" "2024-01-02"
                                       "2024-01-03";
                          currentLogIndex := 0; isGeneratingPDF := false;
                          browser := Samples.browser0 |};
              pdfTimers := 0 |} in
  printPending p ∧
  pdfTimers (run [PrintClicked; PrintClicked; ShareClicked] p) = 1%nat ∧
  isGeneratingPDF (state (run [PrintClicked; PrintClicked; ShareClicked;
                               PrintTimerFires] p)) = false ∧
  tripData (state (run [PrintClicked; PrintClicked; ShareClicked] p)) = Some Samples.trip.
Proof.
  intros p.
  assert (printPending p) as Hp by (split; [split; discriminate | vm_compute; lia]).
  split; [exact Hp|]. split; [reflexivity|]. split; [reflexivity|].
  exact (proj1 (review_actions_keep_trip_and_logs
                  [PrintClicked; PrintClicked; ShareClicked] p Hp)).
Defined.

End ReviewLogsPageFacts.

(** ** Mounting the review page on a stored trip *)

Module ReviewLogsStored.
Import Trip ReviewLogs ReviewLogsPage.

Lemma useEffect_stored `{DateHost} (st : State) data :
  localStorage (browser st) !! "currentTrip" = Some data →
  useEffect st =
    generateELDLogs data
      {| tripData := Some data; eldLogs := eldLogs st;
         currentLogIndex := currentLogIndex st;
         isGeneratingPDF := isGeneratingPDF st; browser := browser st |}.
Proof.
  intros E.
  unfold useEffect, useEffect_with, localStorage_getItem, mbind, Eff_bind, get, mret,
    Eff_ret.
  cbv beta iota. rewrite E. reflexivity.
Qed.

(** X3. When the review page mounts and the slot [currentTrip] holds a
    record with a usable date, the page takes that record as its trip and
    holds three generated logs; it shows no notice, does not navigate,
    writes nothing, and is rendered (not "Loading") on a defined day. *)
Theorem useEffect_shows_stored_trip `{DateHost} (st : State) (data : TripData) :
  localStorage (browser st) !! "currentTrip" = Some data →
  plannedAt_ok data →
  currentLogIndex st = 0%Z →
  ∃ st',
    useEffect st = (Ok (), st') ∧
    tripData st' = Some data ∧
    length (eldLogs st') = 3%nat ∧
    browser st' = browser st ∧
    rendered st' = true ∧
    is_Some (currentLog st').
Proof.
  intros E Hok Hidx. rewrite (useEffect_stored st data E).
  destruct (ReviewLogsFacts.generateELDLogs_ok data
              {| tripData := Some data; eldLogs := eldLogs st;
                 currentLogIndex := currentLogIndex st;
                 isGeneratingPDF := isGeneratingPDF st; browser := browser st |} Hok)
    as (d0 & d1 & d2 & ->).
  eexists. split; [reflexivity|]. cbn. unfold currentLog. cbn. rewrite Hidx. cbn.
  repeat split; eauto.
Qed.

Lemma useEffect_shows_stored_trip_witness :
  let st := initial (Browser_setItem "currentTrip" Samples.trip Samples.browser0) in
  (localStorage (browser st) !! "currentTrip" = Some Samples.trip ∧
   @plannedAt_ok utcHost Samples.trip ∧ currentLogIndex st = 0%Z) ∧
  ∃ st', @useEffect utcHost st = (Ok (), st') ∧ tripData st' = Some Samples.trip ∧
         length (eldLogs st') = 3%nat.
Proof.
  intros st.
  assert (localStorage (browser st) !! "currentTrip" = Some Samples.trip) as E
    by (vm_compute; reflexivity).
  assert (@plannedAt_ok utcHost Samples.trip) as Hok
    by ReviewLogsFacts.plannedAt_by_computation 1704067200000%Z.
  assert (currentLogIndex st = 0%Z) as Hidx by reflexivity.
  split; [repeat split; assumption|].
  destruct (@useEffect_shows_stored_trip utcHost st Samples.trip E Hok Hidx)
    as (st' & E1 & E2 & E3 & _).
  exists st'. repeat split; assumption.
Defined.



(** X5. On a host in UTC, for a click between 1970 and 9999: what the
    rest of [handlePlanTrip] writes is what the review page shows.  The
    page mounted on the browser the planning page leaves takes as its trip
    the record with the texts, cycle hours and locations of the click,
    generates three logs from it, and neither shows a notice nor
    navigates back. *)
Theorem planned_trip_is_shown c p d h locs (ps : PlanTrip.State) :
  (0 ≤ PlanTrip.clock ps < 253402300800000)%Z →
  ∃ ps' rs',
    @PlanTrip.handlePlanTrip_resume utcHost c p d h locs ps = (Ok (), ps') ∧
    @useEffect utcHost (initial (PlanTrip.browser ps')) = (Ok (), rs') ∧
    tripData rs' =
      Some {| currentLocation := c; pickupLocation := p; dropoffLocation := d;
              cycleHours := h; mapLocations := locs;
              plannedAt := utc_toISOString (PlanTrip.clock ps) |} ∧
    length (eldLogs rs') = 3%nat ∧
    browser rs' = PlanTrip.browser ps'.
Proof.
  intros Ht.
  set (record := {| currentLocation := c; pickupLocation := p; dropoffLocation := d;
                    cycleHours := h; mapLocations := locs;
                    plannedAt := utc_toISOString (PlanTrip.clock ps) |}).
  pose proof (@PlanTripSubmit.handlePlanTrip_resume_ok utcHost c p d h locs ps
                ltac:(unfold maxTime; lia)) as Hres.
  set (ps' := (@PlanTrip.handlePlanTrip_resume utcHost c p d h locs ps).2).
  assert (localStorage (browser (initial (PlanTrip.browser ps'))) !! "currentTrip"
          = Some record) as E.
  { unfold ps'. rewrite Hres. apply lookup_insert_eq. }
  destruct (@ReviewLogsFacts.generateELDLogs_ok utcHost record
              {| tripData := Some record;
                 eldLogs := eldLogs (initial (PlanTrip.browser ps'));
                 currentLogIndex := currentLogIndex (initial (PlanTrip.browser ps'));
                 isGeneratingPDF := isGeneratingPDF (initial (PlanTrip.browser ps'));
                 browser := browser (initial (PlanTrip.browser ps')) |})
    as (d0 & d1 & d2 & Hgen).
  { eapply UtcHostFacts.utc_plannedAt_ok; [exact Ht | reflexivity]. }
  exists ps'. eexists. split; [unfold ps'; by rewrite Hres|].
  rewrite (@useEffect_stored utcHost _ record E). split; [exact Hgen|].
  repeat split.
Qed.

Lemma planned_trip_is_shown_witness :
  let ps :=
    {| PlanTrip.currentLocation := "A"; PlanTrip.pickupLocation := "B";
       PlanTrip.dropoffLocation := "C"; PlanTrip.cycleHours := 35.5;
       PlanTrip.mapLocations := []; PlanTrip.isCalculating := true;
       PlanTrip.map := MapContext.initial; PlanTrip.browser := Samples.browser0;
       PlanTrip.clock := 1704067202017; PlanTrip.timers := [] |} in
  (0 ≤ PlanTrip.clock ps < 253402300800000)%Z ∧
  ∃ ps' rs',
    @PlanTrip.handlePlanTrip_resume utcHost "A" "B" "C" 35.5 [] ps = (Ok (), ps') ∧
    @useEffect utcHost (initial (PlanTrip.browser ps')) = (Ok (), rs') ∧
    length (eldLogs rs') = 3%nat.
Proof.
  intros ps.
  assert (0 ≤ PlanTrip.clock ps < 253402300800000)%Z as Ht by (cbn; lia).
  split; [exact Ht|].
  destruct (planned_trip_is_shown "A" "B" "C" 35.5 [] ps Ht)
    as (ps' & rs' & E1 & E2 & _ & E3 & _).
  exists ps', rs'. repeat split; assumption.
Defined.

End ReviewLogsStored.

(** ** The dates of the generated logs on the UTC host *)

Module ReviewLogsDates.
Import Trip ReviewLogs UtcDate.
Local Open Scope Z_scope.

Lemma digit_not_T n : Ascii.eqb (digit n) "T" = false.
Proof.
  destruct (Ascii.eqb_spec (digit n) "T") as [E|]; [|reflexivity].
  apply (f_equal nat_of_ascii) in E. unfold digit in E.
  pose proof (Z.mod_pos_bound n 10 ltac:(lia)) as Hb.
  rewrite nat_ascii_embedding in E by lia.
  change (nat_of_ascii "T") with 84%nat in E. lia.
Qed.

Lemma split_T_0_pad w n rest :
  split_T_0 (pad w n +:+ rest) = pad w n +:+ split_T_0 rest.
Proof.
  revert n rest. induction w as [|w IH]; intros n rest; [reflexivity|].
  change (pad (S w) n) with (pad w (n / 10) +:+ String (digit n) EmptyString).
  rewrite !UtcHostFacts.append_snoc, IH. cbn [split_T_0].
  by rewrite digit_not_T.
Qed.

Lemma append_empty s : s +:+ EmptyString = s.
Proof.
  induction s as [|a s IH]; [reflexivity|].
  change (String a (s +:+ EmptyString) = String a s). by rewrite IH.
Qed.

Lemma split_T_0_dash rest :
  split_T_0 ("-" +:+ rest) = String "-" (split_T_0 rest).
Proof. reflexivity. Qed.

Lemma split_T_0_T rest : split_T_0 ("T" +:+ rest) = EmptyString.
Proof. reflexivity. Qed.

Lemma split_T_0_toISOString t :
  0 ≤ t < 253402300800000 → split_T_0 (utc_toISOString t) = utc_isoDate t.
Proof.
  intros Ht. unfold utc_toISOString, utc_isoDate.
  assert (0 ≤ t / msPerDay < 2932897) as Hz
    by (unfold msPerDay; Z.div_mod_to_equations; lia).
  pose proof (UtcHostFacts.civil_year (t / msPerDay) Hz) as Hyr.
  destruct (civil_from_days (t / msPerDay)) as [[y m] d].
  replace ((0 <=? y) && (y <=? 9999)) with true
    by (symmetry; apply andb_true_iff; split; apply Z.leb_le; lia).
  rewrite split_T_0_pad, split_T_0_dash, split_T_0_pad, split_T_0_dash, split_T_0_pad,
    split_T_0_T.
  by rewrite append_empty.
Qed.

Lemma utc_addDays t k :
  0 ≤ t → 0 ≤ k → t + k * msPerDay ≤ maxTime →
  utc_setDate t (utc_getDate t + k) = Some (t + k * msPerDay).
Proof.
  intros Ht Hk Hmax. unfold utc_setDate, utc_getDate.
  pose proof (UtcHostFacts.civil_roundtrip (t / msPerDay)) as Hrt.
  destruct (civil_from_days (t / msPerDay)) as [[y m] d].
  destruct Hrt as [Hdays _]. cbn [snd].
  replace (days_from_civil y m 1 + (d + k) - 1) with (t / msPerDay + k)
    by (rewrite <- Hdays, <- (UtcHostFacts.days_from_civil_day y m d); lia).
  replace ((t / msPerDay + k) * msPerDay + t mod msPerDay) with (t + k * msPerDay)
    by (unfold msPerDay; Z.div_mod_to_equations; lia).
  unfold TimeClip.
  replace (Z.abs (t + k * msPerDay) <=? maxTime) with true; [reflexivity|].
  symmetry. apply Z.leb_le. unfold msPerDay in *. lia.
Qed.

Lemma generateELDLogs_dates `{DateHost} (data : TripData) (st : State) t t0 t1 t2 :
  Date_parse (plannedAt data) = Some t →
  setDate t (getDate t + 0) = Some t0 →
  setDate t (getDate t + 1) = Some t1 →
  setDate t (getDate t + 2) = Some t2 →
  ∃ st',
    generateELDLogs data st = (Ok (), st') ∧
    (λ log, (id log, date log)) <$> eldLogs st' =
      [ ("log-1", split_T_0 (toISOString t0));
        ("log-2", split_T_0 (toISOString t1));
        ("log-3", split_T_0 (toISOString t2)) ]%string.
Proof.
  intros Hp E0 E1 E2. unfold generateELDLogs. rewrite Hp.
  cbn [forDays]. rewrite (ReviewLogsFacts.logOfDay_ok _ _ _ _ E0).
  cbn [mbind result_bind]. change (0 + 1) with 1.
  rewrite (ReviewLogsFacts.logOfDay_ok _ _ _ _ E1).
  cbn [mbind result_bind]. change (1 + 1) with 2.
  rewrite (ReviewLogsFacts.logOfDay_ok _ _ _ _ E2).
  cbn [mbind result_bind].
  eexists. split; reflexivity.
Qed.

(** X6. On a host in UTC, for a trip planned at an instant [t] whose next
    two days lie between 1970 and 9999, the three generated logs are
    numbered log-1, log-2, log-3 and dated with the calendar dates
    (YYYY-MM-DD) of [t], of [t] plus one day and of [t] plus two days. *)
Theorem log_dates_are_consecutive_days (data : TripData) (st : State) (t : Z) :
  0 ≤ t → t + 2 * msPerDay < 253402300800000 →
  plannedAt data = utc_toISOString t →
  ∃ st',
    @generateELDLogs utcHost data st = (Ok (), st') ∧
    (λ log, (id log, date log)) <$> eldLogs st' =
      [ ("log-1", utc_isoDate t);
        ("log-2", utc_isoDate (t + msPerDay));
        ("log-3", utc_isoDate (t + 2 * msPerDay)) ]%string.
Proof.
  intros Ht Hend Hp. unfold msPerDay in Hend.
  assert (utc_parse (plannedAt data) = Some t) as Hparse
    by (rewrite Hp; apply UtcHostFacts.utc_parse_toISOString; lia).
  assert (∀ k, 0 ≤ k ≤ 2 →
            utc_setDate t (utc_getDate t + k) = Some (t + k * msPerDay))
    as Hadd by (intros k Hk; apply utc_addDays; unfold msPerDay, maxTime; lia).
  destruct (@generateELDLogs_dates utcHost data st t _ _ _ Hparse
              (Hadd 0 ltac:(lia)) (Hadd 1 ltac:(lia)) (Hadd 2 ltac:(lia)))
    as (st' & E & Hd).
  exists st'. split; [exact E|]. rewrite Hd.
  change (@toISOString utcHost) with utc_toISOString.
  rewrite !split_T_0_toISOString by (unfold msPerDay; lia).
  replace (t + 0 * msPerDay) with t by lia.
  replace (t + 1 * msPerDay) with (t + msPerDay) by lia.
  reflexivity.
Qed.

Lemma log_dates_are_consecutive_days_witness :
  let data :=
    {| currentLocation := "A"; pickupLocation := "B"; dropoffLocation := "C";
       cycleHours := 35.5; mapLocations := [];
       plannedAt := "2024-02-28T12:00:00.000Z" |} in
  (0 ≤ 1709121600000 ∧ 1709121600000 + 2 * msPerDay < 253402300800000 ∧
   plannedAt data = utc_toISOString 1709121600000) ∧
  ∃ st',
    @generateELDLogs utcHost data (initial Samples.browser0) = (Ok (), st') ∧
    (λ log, (id log, date log)) <$> eldLogs st' =
      [ ("log-1", "2024-02-28"); ("log-2", "2024-02-29"); ("log-3", "2024-03-01") ]%string.
Proof.
  intros data.
  assert (0 ≤ 1709121600000) as H0 by lia.
  assert (1709121600000 + 2 * msPerDay < 253402300800000) as H1 by (vm_compute; reflexivity).
  assert (plannedAt data = utc_toISOString 1709121600000) as H2 by (vm_compute; reflexivity).
  split; [repeat split; assumption|].
  destruct (log_dates_are_consecutive_days data (initial Samples.browser0)
              1709121600000 H0 H1 H2) as (st' & E & Hd).
  exists st'. split; [exact E|]. rewrite Hd. vm_compute. reflexivity.
Defined.

End ReviewLogsDates.

(** ** The displays of the cycle-hours control *)

Module CycleHoursSliderDisplays.
Import CycleHoursSlider.
Local Open Scope Q_scope.





End CycleHoursSliderDisplays.

(** ** The debounce of the location input *)

Module LocationInputDebounce.
Import LocationInput LocationInputInvariant.

Lemma NoDup_fmap_filter {A B} (f : A → B) (P : A → Prop) `{∀ x, Decision (P x)}
    (l : list A) :
  NoDup (f <$> l) → NoDup (f <$> filter P l).
Proof.
  induction l as [|x l IH]; [done|]. rewrite fmap_cons, NoDup_cons. intros [Hx Hl].
  rewrite filter_cons. destruct (decide (P x)); [|by apply IH].
  rewrite fmap_cons. apply NoDup_cons. split; [|by apply IH].
  intros Hin. apply Hx. apply list_elem_of_fmap in Hin as (y & -> & Hy).
  apply list_elem_of_filter in Hy as [_ Hy]. by apply list_elem_of_fmap_2.
Qed.

Lemma useEffect_requests st :
  requestsWellFormed st → requestsWellFormed (useEffect st).
Proof.
  unfold requestsWellFormed, useEffect. intros (Hh & Hf & Hn).
  destruct (2 <? String.length (debouncedValue st))%nat eqn:E; cbn;
    [|by repeat split].
  apply Nat.ltb_lt in E. split; [exact Hh|]. split.
  - apply Forall_app. split.
    + eapply Forall_impl; [exact Hf|]. cbn. intros rq [H1 H2]. split; [exact H1 | lia].
    + apply Forall_singleton. cbn. split; [exact E | lia].
  - rewrite fmap_app. apply NoDup_app. split; [exact Hn|]. split; [|apply NoDup_singleton].
    intros n Hin Hn'. apply list_elem_of_singleton in Hn'. cbn in Hn'. subst n.
    apply list_elem_of_fmap in Hin as (rq & Hrq & Hin).
    rewrite Forall_forall in Hf. destruct (Hf rq Hin) as [_ Hlt]. lia.
Qed.

Lemma setValue_requests v st :
  requestsWellFormed st → requestsWellFormed (setValue v st).
Proof.
  unfold requestsWellFormed, setValue. intros (Hh & Hf & Hn).
  destruct (decide (v = value st)); [by repeat split|]. cbn.
  split; [by right|]. by split.
Qed.

Lemma step_requests e st :
  requestsWellFormed st → requestsWellFormed (step e st).
Proof.
  intros Hst. destruct e as [v | | n r | s |]; cbn [step].
  - by apply setValue_requests.
  - unfold timeout. destruct (handler st) as [v|] eqn:Eh; [|exact Hst].
    destruct Hst as (Hh & Hf & Hn).
    assert (requestsWellFormed
              {| value := value st; debouncedValue := v; handler := None;
                 suggestions := suggestions st; showSuggestions := showSuggestions st;
                 isLoading := isLoading st; isValid := isValid st;
                 inFlight := inFlight st; issued := issued st |}) as Hst'
      by (split; [by left | by split]).
    destruct (decide (v = debouncedValue st)); [exact Hst'|].
    by apply useEffect_requests.
  - unfold fetchSuggestions_resume. destruct (bool_decide _); [|exact Hst].
    destruct Hst as (Hh & Hf & Hn).
    assert (Forall (λ rq, (2 < String.length (query rq))%nat ∧ (seq rq < issued st)%nat)
              (filter (λ rq, seq rq ≠ n) (inFlight st))) as Hf'
      by (rewrite Forall_forall in Hf |- *; intros rq Hrq;
          apply list_elem_of_filter in Hrq as [_ Hrq]; by apply Hf).
    assert (NoDup (seq <$> filter (λ rq, seq rq ≠ n) (inFlight st))) as Hn'
      by (by apply NoDup_fmap_filter).
    destruct r; (split; [exact Hh|]); by split.
  - unfold handleSuggestionClick.
    destruct (setValue_requests (place_name s) st Hst) as (Hh & Hf & Hn). by split.
  - unfold clearInput.
    destruct (setValue_requests "" st Hst) as (Hh & Hf & Hn). by split.
Qed.

Lemma mounted_requests v0 : requestsWellFormed (mounted v0).
Proof.
  apply useEffect_requests. split; [by right|]. split; [by apply Forall_nil|].
  apply NoDup_nil_2.
Qed.

Lemma run_requests evs st :
  requestsWellFormed st → requestsWellFormed (run evs st).
Proof.
  revert st. induction evs as [|e evs IH]; intros st Hst; [exact Hst|].
  apply (IH (step e st)). by apply step_requests.
Qed.

Lemma run_app evs1 evs2 st : run (evs1 ++ evs2) st = run evs2 (run evs1 st).
Proof. apply foldl_app. Qed.

(** X8. Whatever is typed, clicked or received, in whatever order: the
    pending debounce timeout, if there is one, carries the latest text;
    every request in flight is for a text longer than two characters (a
    shorter text is never looked up); and the requests in flight have
    distinct numbers, all issued before. *)
Theorem requests_stay_well_formed (evs : list Event) (v0 : string) :
  let st := run evs (mounted v0) in
  (handler st = None ∨ handler st = Some (value st)) ∧
  Forall (λ rq, (2 < String.length (query rq))%nat ∧ (seq rq < issued st)%nat)
         (inFlight st) ∧
  NoDup (seq <$> inFlight st).
Proof. apply run_requests, mounted_requests. Qed.

Lemma run_typed vs v st :
  value (run (Typed <$> vs ++ [v]) st) = v ∧
  debouncedValue (run (Typed <$> vs ++ [v]) st) = debouncedValue st ∧
  suggestions (run (Typed <$> vs ++ [v]) st) = suggestions st ∧
  inFlight (run (Typed <$> vs ++ [v]) st) = inFlight st ∧
  issued (run (Typed <$> vs ++ [v]) st) = issued st.
Proof.
  revert st. induction vs as [|w vs IH]; intros st.
  - cbn. unfold setValue. destruct (decide (v = value st)); by repeat split.
  - change (run (Typed <$> (w :: vs) ++ [v]) st)
      with (run (Typed <$> vs ++ [v]) (setValue w st)).
    destruct (IH (setValue w st)) as (-> & -> & -> & -> & ->).
    unfold setValue. destruct (decide (w = value st)); by repeat split.
Qed.

Lemma timeout_none st : handler st = None → timeout st = st.
Proof. intros E. unfold timeout. by rewrite E. Qed.

Lemma timeout_handler st : handler (timeout st) = None.
Proof.
  unfold timeout. destruct (handler st) as [v|] eqn:E; [|exact E].
  destruct (decide (v = debouncedValue st)); [reflexivity|].
  unfold useEffect. cbn [debouncedValue]. by destruct (2 <? _)%nat.
Qed.

Lemma timeout_inFlight st v :
  handler st = Some v →
  inFlight (timeout st) = inFlight st ∨
  inFlight (timeout st) = inFlight st ++ [{| seq := issued st; query := v |}].
Proof.
  intros E. unfold timeout. rewrite E.
  destruct (decide (v = debouncedValue st)); [by left|].
  unfold useEffect. cbn [debouncedValue]. destruct (2 <? _)%nat; [by right | by left].
Qed.

(** X9. A burst of keystrokes issues no request by itself, and the
    debounce timeout that follows issues at most one, which is for the
    last text typed; a timeout with nothing pending does nothing. *)
Theorem burst_issues_at_most_one_request (evs : list Event) (v0 : string)
    (vs : list string) (v : string) :
  let st := run evs (mounted v0) in
  let st' := run (Typed <$> vs ++ [v]) st in
  value st' = v ∧
  inFlight st' = inFlight st ∧
  suggestions st' = suggestions st ∧
  (inFlight (timeout st') = inFlight st ∨
   inFlight (timeout st') = inFlight st ++ [{| seq := issued st; query := v |}]) ∧
  timeout (timeout st') = timeout st'.
Proof.
  intros st st'.
  destruct (run_typed vs v st) as (Hv & Hd & Hs & Hi & Hn). fold st' in Hv, Hd, Hs, Hi, Hn.
  assert (requestsWellFormed st') as (Hh & _ & _).
  { unfold st', st. rewrite <- run_app. apply run_requests, mounted_requests. }
  split; [exact Hv|]. split; [exact Hi|]. split; [exact Hs|].
  split; [|apply timeout_none, timeout_handler].
  destruct Hh as [Hh | Hh].
  - left. by rewrite (timeout_none _ Hh).
  - destruct (timeout_inFlight st' (value st') Hh) as [E | E]; rewrite E, Hi;
      [by left | right]. by rewrite Hn, Hv.
Qed.

(** X10. Choosing a suggestion whose address differs from the text and
    from the debounced text, and is longer than two characters: the list
    is closed and the input marked valid at once, but the address is a
    new text like any other, so the next timeout looks it up, marks the
    input valid only if the address is longer than ten characters, and
    the response opens the list again. *)
Theorem suggestion_click_is_looked_up (st : State) (s : GeocodingResult)
    (fs : list GeocodingResult) :
  place_name s ≠ value st →
  place_name s ≠ debouncedValue st →
  (2 < String.length (place_name s))%nat →
  let st1 := handleSuggestionClick s st in
  let st2 := timeout st1 in
  let st3 := fetchSuggestions_resume (issued st) (Features fs) st2 in
  value st1 = place_name s ∧ showSuggestions st1 = false ∧ isValid st1 = true ∧
  inFlight st2 = inFlight st ++ [{| seq := issued st; query := place_name s |}] ∧
  isValid st2 = (10 <? String.length (place_name s))%nat ∧
  showSuggestions st3 = true ∧ suggestions st3 = fs.
Proof.
  intros Hv Hd Hl st1 st2 st3.
  assert (st1 = {| value := place_name s; debouncedValue := debouncedValue st;
                   handler := Some (place_name s); suggestions := suggestions st;
                   showSuggestions := false; isLoading := isLoading st; isValid := true;
                   inFlight := inFlight st; issued := issued st |}) as E1.
  { unfold st1, handleSuggestionClick, setValue.
    destruct (decide (place_name s = value st)); [contradiction|]. reflexivity. }
  assert (st2 = {| value := place_name s; debouncedValue := place_name s;
                   handler := None; suggestions := suggestions st;
                   showSuggestions := false; isLoading := true;
                   isValid := (10 <? String.length (place_name s))%nat;
                   inFlight := inFlight st ++
                                 [{| seq := issued st; query := place_name s |}];
                   issued := S (issued st) |}) as E2.
  { unfold st2. rewrite E1. unfold timeout. cbn [handler debouncedValue].
    destruct (decide (place_name s = debouncedValue st)); [contradiction|].
    unfold useEffect. cbn [debouncedValue]. apply Nat.ltb_lt in Hl. by rewrite Hl. }
  rewrite E1 at 1 2 3. split; [reflexivity|]. split; [reflexivity|]. split; [reflexivity|].
  rewrite E2 at 1 2. split; [reflexivity|]. split; [reflexivity|].
  unfold st3. rewrite E2. unfold fetchSuggestions_resume. cbn [inFlight].
  rewrite bool_decide_eq_true_2; [by split|].
  rewrite fmap_app. apply elem_of_app. right. by left.
Qed.

Lemma suggestion_click_is_looked_up_witness :
  let albany := {| place_name := "Albany St"; center := ((-73)%Q, 42%Q) |} in
  let st := run [Typed "alb"; Timeout; Responded 0 (Features [albany])] (mounted "") in
  (place_name albany ≠ value st ∧ place_name albany ≠ debouncedValue st ∧
   (2 < String.length (place_name albany))%nat) ∧
  isValid (handleSuggestionClick albany st) = true ∧
  isValid (timeout (handleSuggestionClick albany st)) = false ∧
  showSuggestions
    (fetchSuggestions_resume (issued st) (Features [albany])
       (timeout (handleSuggestionClick albany st))) = true.
Proof.
  intros albany st.
  assert (place_name albany ≠ value st) as Hv by discriminate.
  assert (place_name albany ≠ debouncedValue st) as Hd by discriminate.
  assert (2 < String.length (place_name albany))%nat as Hl by (vm_compute; lia).
  split; [repeat split; assumption|].
  destruct (suggestion_click_is_looked_up st albany [albany] Hv Hd Hl)
    as (_ & _ & H1 & _ & H2 & H3 & _).
  split; [exact H1|]. split; [rewrite H2; reflexivity | exact H3].
Defined.

End LocationInputDebounce.

(** ** The operations of the map provider *)

Module MapContextOperations.
Import Trip MapContext MapContextFacts.

(** X11. Initialising the map is done once: with a container it leaves a
    map in place and keeps the provider's markers, any further call, with
    or without a container, changes nothing, and a call on a provider that
    already has a map leaves its markers and route as they are; without a
    container nothing is created. *)
Theorem initMap_is_idempotent (container : bool) (st : State) :
  let st1 := (initMap true st).2 in
  initMap true st = (Ok (), st1) ∧
  is_Some (mapInstance st1) ∧
  markers st1 = markers st ∧
  initMap container st1 = (Ok (), st1) ∧
  (is_Some (mapInstance st) → initMap container st = (Ok (), st)) ∧
  initMap false st = (Ok (), st).
Proof.
  destruct st as [[m|] mks init]; cbn; repeat split; eauto.
  - intros [? [=]].
Qed.

Lemma initMap_is_idempotent_witness :
  let st := (initMap true initial).2 in
  is_Some (mapInstance st) ∧ initMap true st = (Ok (), st).
Proof.
  intros st.
  assert (is_Some (mapInstance st)) as Hm by (eexists; reflexivity).
  split; [exact Hm|].
  exact (proj1 (proj2 (proj2 (proj2 (proj2 (initMap_is_idempotent true st))))) Hm).
Defined.

(** X12. On a provider whose map has a consistent route (none, or one
    layer on its source), drawing a route through two or more locations
    never fails and leaves exactly one route layer on one route source,
    whose coordinates are the [lng, lat] of the locations in their order;
    the markers are untouched.  Drawing again replaces the line: the last
    route drawn is the one on the map. *)
Theorem drawRoute_leaves_one_route (l1 l2 k1 k2 : Location) (ls ks : list Location)
    (st : State) (m : Map) :
  mapInstance st = Some m →
  routeConsistent m →
  ∃ st1 m1 st2 m2,
    drawRoute (l1 :: l2 :: ls) st = (Ok (), st1) ∧
    mapInstance st1 = Some m1 ∧
    layers m1 = [routeLayer] ∧
    sources m1 =
      <[sourceId := (λ loc, (lng loc, lat loc)) <$> l1 :: l2 :: ls]> (sources m) ∧
    attached m1 = attached m ∧ markers st1 = markers st ∧
    drawRoute (k1 :: k2 :: ks) st1 = (Ok (), st2) ∧
    mapInstance st2 = Some m2 ∧
    layers m2 = [routeLayer] ∧
    sources m2 =
      <[sourceId := (λ loc, (lng loc, lat loc)) <$> k1 :: k2 :: ks]> (sources m) ∧
    attached m2 = attached m ∧ markers st2 = markers st.
Proof.
  intros E Hr.
  destruct (drawRoute_replaces l1 l2 ls st m E Hr) as [fit1 E1].
  rewrite E1.
  set (m1 := {| sources := <[sourceId := _]> (sources m); layers := [routeLayer];
                attached := attached m; fitted := fit1 |}).
  set (st1 := {| mapInstance := Some m1; markers := markers st;
                 isMapInitialized := isMapInitialized st |}).
  assert (routeConsistent m1) as Hr1.
  { right. split; [reflexivity|]. subst m1. cbn. rewrite lookup_insert_eq. eauto. }
  destruct (drawRoute_replaces k1 k2 ks st1 m1 eq_refl Hr1) as [fit2 E2].
  exists st1, m1. eexists. eexists. rewrite E2. cbn.
  repeat split. by rewrite insert_insert_eq.
Qed.

Lemma drawRoute_leaves_one_route_witness :
  let a := {| lat := 40; lng := -74; address := "A"; type := current |} in
  let b := {| lat := 41; lng := -75; address := "B"; type := pickup |} in
  let st := (initMap true initial).2 in
  (mapInstance st = Some Map_new ∧ routeConsistent Map_new) ∧
  ∃ st1 m1,
    drawRoute [a; b] st = (Ok (), st1) ∧ mapInstance st1 = Some m1 ∧
    layers m1 = [routeLayer].
Proof.
  intros a b st.
  assert (mapInstance st = Some Map_new) as E by reflexivity.
  assert (routeConsistent Map_new) as Hr by (left; split; reflexivity).
  split; [split; assumption|].
  destruct (drawRoute_leaves_one_route a b b a [] [] st Map_new E Hr)
    as (st1 & m1 & _ & _ & E1 & E2 & E3 & _).
  exists st1, m1. repeat split; assumption.
Defined.

Lemma list_difference_all {A} `{EqDecision A} (l k : list A) :
  (∀ x, x ∈ l → x ∈ k) → list_difference l k = [].
Proof.
  induction l as [|x l IH]; intros Hin; [reflexivity|]. cbn.
  destruct (decide_rel elem_of x k) as [|Hn].
  - apply IH. intros y Hy. apply Hin. by right.
  - exfalso. apply Hn, Hin. by left.
Qed.

(** X13. [clearMarkers] detaches from the map every marker the provider
    holds and empties its list, so that on a well-formed provider no
    marker is left on the map; the route layer and its source stay. *)
Theorem clearMarkers_detaches_all (st : State) :
  wellFormed st →
  ∃ st',
    clearMarkers st = (Ok (), st') ∧
    markers st' = [] ∧
    wellFormed st' ∧
    match mapInstance st, mapInstance st' with
    | Some m, Some m' =>
        attached m' = [] ∧ layers m' = layers m ∧ sources m' = sources m
    | None, None => True
    | _, _ => False
    end.
Proof.
  intros Hwf. destruct st as [[m|] mks init]; cbn in Hwf.
  - destruct Hwf as [Hr Ha]. eexists. split; [reflexivity|]. cbn.
    rewrite Ha, list_difference_all by done. repeat split. exact Hr.
  - eexists. split; [reflexivity|]. cbn. done.
Qed.

Lemma clearMarkers_detaches_all_witness :
  let a := {| lat := 40; lng := -74; address := "A"; type := current |} in
  let st := (addMarker a (addMarker a (initMap true initial).2).2).2 in
  wellFormed st ∧ length (markers st) = 2%nat ∧
  ∃ st', clearMarkers st = (Ok (), st') ∧ markers st' = [].
Proof.
  intros a st.
  assert (wellFormed st) as Hwf by (split; [left; split; reflexivity | reflexivity]).
  split; [exact Hwf|]. split; [reflexivity|].
  destruct (clearMarkers_detaches_all st Hwf) as (st' & E & Hm & _).
  exists st'. split; assumption.
Defined.

(** X14. On a provider with a map, [addMarker] attaches a marker in the
    colour of the location's role at its [lng, lat], after all earlier
    markers, and fits the view to the positions of all markers of the
    list, the new one included; the route is untouched.  Without a map it
    does nothing. *)
Theorem addMarker_fits_all_markers (location : Location) (st : State) :
  let marker := {| color := getMarkerColor (type location);
                   lngLat := (lng location, lat location) |} in
  match mapInstance st with
  | Some m =>
      addMarker location st =
        (Ok (),
         {| mapInstance :=
              Some {| sources := sources m; layers := layers m;
                      attached := attached m ++ [marker];
                      fitted := Some (lngLat <$> markers st ++ [marker]) |};
            markers := markers st ++ [marker];
            isMapInitialized := isMapInitialized st |})
  | None => addMarker location st = (Ok (), st)
  end.
Proof.
  destruct st as [[m|] mks init]; [|reflexivity]. cbn [mapInstance].
  unfold addMarker, fitMapToBounds, onMap, mbind, Eff_bind, get, modify. cbn.
  destruct (mks ++ _) eqn:Hm; [by destruct mks|]. reflexivity.
Qed.

End MapContextOperations.

(** ** The planning page over its whole life *)

Module PlanTripRuns.
Import Trip PlanTrip PlanTripMap PlanTripFacts PlanTripSubmit.

Lemma addMarker_markers location (ms : MapContext.State) :
  MapContext.wellFormed ms →
  ∃ ms',
    MapContext.addMarker location ms = (Ok (), ms') ∧
    MapContext.wellFormed ms' ∧
    MapContext.markers ms `prefix_of` MapContext.markers ms'.
Proof.
  intros Hwf. destruct (MapContext.mapInstance ms) as [m|] eqn:E.
  - destruct (MapContextFacts.addMarker_appends location ms m E) as [fit ->].
    eexists. split; [reflexivity|].
    unfold MapContext.wellFormed in *. rewrite E in Hwf. destruct Hwf as [Hr Ha].
    cbn. split; [split; [exact Hr | by rewrite Ha] | by apply prefix_app_r].
  - rewrite MapContextFacts.addMarker_no_map by exact E. by exists ms.
Qed.

Lemma drawRoute_markers locations (ms : MapContext.State) :
  MapContext.wellFormed ms →
  ∃ ms',
    MapContext.drawRoute locations ms = (Ok (), ms') ∧
    MapContext.wellFormed ms' ∧
    MapContext.markers ms' = MapContext.markers ms.
Proof.
  intros Hwf. destruct (MapContext.mapInstance ms) as [m|] eqn:E.
  - destruct locations as [|l1 [|l2 ls]];
      [rewrite MapContextFacts.drawRoute_short by (cbn; lia); by exists ms ..|].
    unfold MapContext.wellFormed in Hwf. rewrite E in Hwf. destruct Hwf as [Hr Ha].
    destruct (MapContextFacts.drawRoute_replaces l1 l2 ls ms m E Hr) as [fit ->].
    eexists. split; [reflexivity|]. split; [|reflexivity].
    split; [|exact Ha]. right. split; [reflexivity|]. cbn.
    rewrite lookup_insert_eq. eauto.
  - rewrite MapContextFacts.drawRoute_no_map by exact E. by exists ms.
Qed.

Lemma handleLocationChange_markers ty address la ln st :
  MapContext.wellFormed (map st) →
  MapContext.markers (map st) `prefix_of`
    MapContext.markers (map (handleLocationChange ty address (Some (la, ln)) st).2).
Proof.
  intros Hwf. unfold handleLocationChange.
  destruct (setText_ok ty address st) as (st1 & E1 & Hm1 & Hl1).
  erewrite Eff_bind_ok by exact E1.
  set (new := {| lat := la; lng := ln; address := address; type := ty |}).
  rewrite <- Hm1 in Hwf |- *.
  destruct (addMarker_markers new (map st1) Hwf) as (ms2 & E2 & Hwf2 & Hp2).
  erewrite Eff_bind_ok by (unfold addMarker; eapply zoom_ok; exact E2).
  erewrite Eff_bind_ok by reflexivity.
  cbn [mapLocations setMap].
  set (updated := filter (λ loc, type loc ≠ ty) (mapLocations st1) ++ [new]).
  destruct (2 <=? length updated)%nat.
  - destruct (drawRoute_markers updated ms2 Hwf2) as (ms3 & E3 & Hwf3 & Hp3).
    erewrite Eff_bind_ok by (unfold drawRoute; eapply zoom_ok; exact E3).
    cbn. by rewrite Hp3.
  - erewrite Eff_bind_ok by reflexivity. cbn. exact Hp2.
Qed.

Section WithHost.
Context `{DateHost}.

Lemma step_markers e st :
  MapContext.wellFormed (map st) →
  MapContext.markers (map st) `prefix_of` MapContext.markers (map (step e st).2).
Proof.
  intros Hwf. destruct e as [container | ty address [[la ln]|] | v | | | ms | i].
  - cbn [step]. unfold initMap, zoom.
    destruct (map st) as [[m|] mks init], container; cbn; reflexivity.
  - by apply handleLocationChange_markers.
  - destruct (handleLocationChange_text_only ty address st) as (st' & E & Hm & _).
    cbn [step]. rewrite E. cbn. by rewrite Hm.
  - reflexivity.
  - cbn [step]. unfold mbind, Eff_bind, get. destruct (isCalculating st); [reflexivity|].
    unfold handlePlanTrip, mbind, Eff_bind, get.
    destruct (_ || _); reflexivity.
  - reflexivity.
  - reflexivity.
  - cbn [step]. unfold mbind, Eff_bind, get.
    destruct (timers st !! i) as [tm|]; [|reflexivity].
    destruct (due tm <=? clock st)%Z; [|reflexivity].
    cbn. destruct (runTask_frame (task tm)
      {| currentLocation := currentLocation st; pickupLocation := pickupLocation st;
         dropoffLocation := dropoffLocation st; cycleHours := cycleHours st;
         mapLocations := mapLocations st; isCalculating := isCalculating st;
         map := map st; browser := browser st; clock := clock st;
         timers := delete i (timers st) |}) as [-> _].
    reflexivity.
Qed.

(** X15. Over the whole life of the planning page, whatever the events,
    the markers of the map provider only accumulate: each event leaves the
    earlier markers in place, in their order ("Clear All Fields" and a
    re-selection of a role included), and the markers attached to the map
    are exactly those of the provider's list. *)
Theorem markers_only_accumulate (evs : list Event) (e : Event) (b : Browser) (now : Z) :
  let st := runEvents evs (initial b now) in
  let st' := (step e st).2 in
  MapContext.markers (map st) `prefix_of` MapContext.markers (map st') ∧
  match MapContext.mapInstance (map st') with
  | Some m => MapContext.attached m = MapContext.markers (map st')
  | None => MapContext.markers (map st') = []
  end.
Proof.
  intros st st'.
  destruct (runEvents_invariant evs (initial b now)) as [Hwf Hone];
    [reflexivity | apply NoDup_nil_2 |].
  split; [by apply step_markers|].
  destruct (step_invariant e st Hwf Hone) as [Hwf' _].
  unfold MapContext.wellFormed in Hwf'. fold st' in Hwf'.
  destruct (MapContext.mapInstance (map st')); [apply Hwf' | exact Hwf'].
Qed.

Lemma filter_delete_length {A} (P : A → Prop) `{∀ x, Decision (P x)}
    (l : list A) (i : nat) (x : A) :
  l !! i = Some x →
  length (filter P l) =
    (length (filter P (delete i l)) + (if decide (P x) then 1 else 0))%nat.
Proof.
  revert i. induction l as [|y l IH]; intros [|i] Hl; try discriminate.
  - cbn in Hl. injection Hl as ->. change (delete 0%nat (x :: l)) with l.
    rewrite filter_cons. destruct (decide (P x)); cbn; lia.
  - cbn in Hl. change (delete (S i) (y :: l)) with (y :: delete i l).
    rewrite !filter_cons.
    specialize (IH i Hl). destruct (decide (P y)); cbn; congruence.
Qed.

Lemma control_zoom {A} (m : Eff MapContext.State A) st :
  isCalculating (zoom map setMap m st).2 = isCalculating st ∧
  timers (zoom map setMap m st).2 = timers st.
Proof. unfold zoom. destruct (m (map st)). by split. Qed.

Lemma control_handleLocationChange ty address coordinates st :
  isCalculating (handleLocationChange ty address coordinates st).2 = isCalculating st ∧
  timers (handleLocationChange ty address coordinates st).2 = timers st.
Proof.
  cut (∃ r st', handleLocationChange ty address coordinates st = (r, st') ∧
         isCalculating st' = isCalculating st ∧ timers st' = timers st).
  { intros (r & st' & -> & Hc & Ht). by split. }
  unfold handleLocationChange.
  destruct (setText_ok ty address st) as (st1 & E1 & _ & _).
  assert (isCalculating st1 = isCalculating st ∧ timers st1 = timers st) as [Hc Ht].
  { destruct ty; injection E1 as <-; by split. }
  erewrite Eff_bind_ok by exact E1.
  destruct coordinates as [[la ln]|]; [|by exists (Ok ()), st1].
  set (new := {| lat := la; lng := ln; address := address; type := ty |}).
  destruct (control_zoom (MapContext.addMarker new) st1) as [Hc2 Ht2].
  unfold mbind at 1. unfold Eff_bind at 1. unfold addMarker.
  destruct (zoom map setMap (MapContext.addMarker new) st1)
    as [[[]|ex] st2]; cbn in Hc2, Ht2;
    [|eexists _, _; split; [reflexivity | split; congruence]].
  erewrite Eff_bind_ok by reflexivity.
  set (updated := filter (λ loc, type loc ≠ ty) (mapLocations st2) ++ [new]).
  unfold mbind at 1. unfold Eff_bind at 1.
  destruct (2 <=? length updated)%nat.
  - destruct (control_zoom (MapContext.drawRoute updated) st2) as [Hc3 Ht3].
    unfold drawRoute. destruct (zoom map setMap (MapContext.drawRoute updated) st2)
      as [[[]|ex] st3]; cbn in Hc3, Ht3;
      (eexists _, _; split; [reflexivity | cbn; split; congruence]).
  - eexists _, _. split; [reflexivity | cbn; split; congruence].
Qed.

Lemma step_one_submission e st :
  length (filter (λ tm, isResume tm = true) (timers st)) =
    (if isCalculating st then 1 else 0)%nat →
  length (filter (λ tm, isResume tm = true) (timers (step e st).2)) =
    (if isCalculating (step e st).2 then 1 else 0)%nat.
Proof.
  intros Hinv. destruct e as [container | ty address coordinates | v | | | ms | i].
  - cbn [step]. unfold initMap.
    destruct (control_zoom (MapContext.initMap container) st) as [-> ->]. exact Hinv.
  - cbn [step].
    destruct (control_handleLocationChange ty address coordinates st) as [-> ->].
    exact Hinv.
  - exact Hinv.
  - cbn [step]. unfold mbind, Eff_bind, get.
    destruct (isCalculating st) eqn:Ec; [cbn; by rewrite Ec|].
    unfold handlePlanTrip, mbind, Eff_bind, get.
    destruct (_ || _); cbn; [by rewrite Ec|].
    unfold setTimeout, mbind, Eff_bind, get. cbn.
    rewrite filter_app, length_app, Hinv. reflexivity.
  - exact Hinv.
  - exact Hinv.
  - cbn [step]. unfold mbind, Eff_bind, get.
    destruct (timers st !! i) as [tm|] eqn:Ei; [|exact Hinv].
    destruct (due tm <=? clock st)%Z; [|exact Hinv].
    rewrite (filter_delete_length (λ tm, isResume tm = true) _ i tm Ei) in Hinv.
    cbn. destruct tm as [dueAt [c p d h locs | path]]; cbn [task runTask].
    + cbn in Hinv. rewrite decide_True in Hinv by done.
      set (st1 := {| currentLocation := currentLocation st;
                     timers := delete i (timers st) |}).
      assert (length (filter (λ tm, isResume tm = true) (timers st1)) = 0%nat) as H0.
      { cbn. destruct (isCalculating st); lia. }
      destruct (decide (Z.abs (clock st1) ≤ maxTime)%Z) as [Hrep|Hrep].
      * rewrite handlePlanTrip_resume_ok by exact Hrep. cbn.
        rewrite filter_app, length_app. cbn in H0. rewrite H0. reflexivity.
      * rewrite handlePlanTrip_resume_error by lia. cbn. exact H0.
    + cbn in Hinv. rewrite decide_False in Hinv by done. cbn. lia.
Qed.

(** X16. Over the whole life of the planning page there is never more
    than one submission under way: the number of pending continuations of
    [handlePlanTrip] is one while the page shows that it is calculating
    and zero otherwise, whatever the user clicks and whenever the timers
    fire. *)
Theorem one_submission_at_a_time (evs : list Event) (b : Browser) (now : Z) :
  let st := runEvents evs (initial b now) in
  length (filter (λ tm, isResume tm = true) (timers st)) =
    (if isCalculating st then 1 else 0)%nat.
Proof.
  cbn zeta. generalize (initial b now) (eq_refl :
    length (filter (λ tm, isResume tm = true) (timers (initial b now))) =
      (if isCalculating (initial b now) then 1 else 0)%nat).
  induction evs as [|e evs IH]; intros st Hinv; [exact Hinv|].
  change (runEvents (e :: evs) st) with (runEvents evs (step e st).2).
  apply IH. by apply step_one_submission.
Qed.

(** X17. Events that only edit the form (a text change without
    coordinates, a change of the cycle hours, "Clear All Fields") never
    touch the map: after any number of them the provider's map, markers
    and route are what they were, and so are the browser and the timers.
    In particular "Clear All Fields" empties the list of locations and
    leaves their markers and the route on the map. *)
Theorem form_edits_leave_the_map (evs : list Event) (st : State) :
  forallb formOnly evs = true →
  map (runEvents evs st) = map st ∧
  browser (runEvents evs st) = browser st ∧
  timers (runEvents evs st) = timers st ∧
  isCalculating (runEvents evs st) = isCalculating st ∧
  (ClearAllClicked ∈ evs → last evs = Some ClearAllClicked →
   mapLocations (runEvents evs st) = []).
Proof.
  revert st. induction evs as [|e evs IH]; intros st Hf.
  - repeat split. intros Hin. by apply elem_of_nil in Hin.
  - cbn in Hf. apply andb_true_iff in Hf as [He Hf].
    change (runEvents (e :: evs) st) with (runEvents evs (step e st).2).
    destruct (IH (step e st).2 Hf) as (Hm & Hb & Ht & Hc & Hl).
    rewrite Hm, Hb, Ht, Hc.
    assert (map (step e st).2 = map st ∧ browser (step e st).2 = browser st ∧
            timers (step e st).2 = timers st ∧
            isCalculating (step e st).2 = isCalculating st) as (-> & -> & -> & ->).
    { destruct e as [| ty address [[la ln]|] | | | | |]; try discriminate;
        [|by repeat split..].
      cbn [step]. destruct ty; by repeat split. }
    do 4 (split; [reflexivity|]).
    intros _ Hlast. destruct evs as [|e' evs'].
    + cbn in Hlast. injection Hlast as ->. reflexivity.
    + apply Hl; [|exact Hlast].
      rewrite last_cons in Hlast. destruct (last (e' :: evs')) eqn:El;
        [|by apply last_None in El].
      injection Hlast as <-. by apply last_Some_elem_of.
Qed.

(** X18. The rest of a submission, whatever the instant at which it
    runs, ends without an exception and with the page no longer
    calculating, and it navigates nowhere by itself.  At a representable
    instant it shows the success notice, fills the slot [currentTrip] and
    leaves one more timer, due 1000 ms later, which does nothing before
    that and then navigates to "/logs", touching neither local storage nor
    the notices.  At an instant that is not representable it shows the
    success notice and then the error notice, writes nothing and leaves
    no timer. *)
Theorem submission_ends_in_navigation_or_error
    (c p d : string) (h : Q) (locs : list Location) (st : State) :
  let success :=
    {| title := "Trip Planned Successfully";
       description := "ELD logs and route have been calculated. Redirecting to review...";
       variant := None |} in
  let failure :=
    {| title := "Planning Error";
       description := "Failed to calculate trip. Please check your inputs and try again.";
       variant := Some "destructive" |} in
  let nav := {| due := clock st + 1000; task := NavigateTask "/logs" |} in
  ∃ st',
    handlePlanTrip_resume c p d h locs st = (Ok (), st') ∧
    isCalculating st' = false ∧
    navigated (browser st') = navigated (browser st) ∧
    (((Z.abs (clock st) ≤ maxTime)%Z ∧
      toasts (browser st') = toasts (browser st) ++ [success] ∧
      is_Some (localStorage (browser st') !! "currentTrip") ∧
      timers st' = timers st ++ [nav] ∧
      ∀ st2 i,
        timers st2 !! i = Some nav →
        ((clock st2 < due nav)%Z → step (TimerFires i) st2 = (Ok (), st2)) ∧
        ((due nav ≤ clock st2)%Z →
         ∃ st3,
           step (TimerFires i) st2 = (Ok (), st3) ∧
           navigated (browser st3) = navigated (browser st2) ++ ["/logs"] ∧
           localStorage (browser st3) = localStorage (browser st2) ∧
           toasts (browser st3) = toasts (browser st2) ∧
           timers st3 = delete i (timers st2)))
     ∨
     ((maxTime < Z.abs (clock st))%Z ∧
      toasts (browser st') = toasts (browser st) ++ [success; failure] ∧
      localStorage (browser st') = localStorage (browser st) ∧
      timers st' = timers st)).
Proof.
  intros success failure nav.
  destruct (decide (Z.abs (clock st) ≤ maxTime)%Z) as [Hrep|Hrep].
  - rewrite handlePlanTrip_resume_ok by exact Hrep.
    eexists. split; [reflexivity|]. do 2 (split; [reflexivity|]). left.
    split; [exact Hrep|]. split; [reflexivity|].
    split; [cbn; rewrite lookup_insert_eq; eauto|]. split; [reflexivity|].
    intros st2 i Hi. split; [exact (fire_early i nav st2 Hi)|]. intros Hdue.
    rewrite (fire_due i nav st2 Hi Hdue). eexists. split; [reflexivity|].
    cbn. repeat split.
  - rewrite handlePlanTrip_resume_error by lia.
    eexists. split; [reflexivity|]. cbn. do 2 (split; [reflexivity|]). right.
    split; [lia|]. split; [by rewrite <- app_assoc|]. by split.
Qed.

End WithHost.

Lemma form_edits_leave_the_map_witness :
  let a := {| lat := 40; lng := -74; address := "Depot"; type := pickup |} in
  let b := {| lat := 41; lng := -75; address := "Dock"; type := dropoff |} in
  let st :=
    @runEvents utcHost
      [MapMounted true; LocationChange pickup "Depot" (Some (40%Q, (-74)%Q));
       LocationChange dropoff "Dock" (Some (41%Q, (-75)%Q))]
      (initial Samples.browser0 0%Z) in
  let evs := [LocationChange pickup "Depo" None; CycleHoursChange 10; ClearAllClicked] in
  (forallb formOnly evs = true ∧ mapLocations st = [a; b] ∧
   length (MapContext.markers (map st)) = 2%nat) ∧
  map (@runEvents utcHost evs st) = map st ∧
  mapLocations (@runEvents utcHost evs st) = [].
Proof.
  intros a b st evs.
  assert (forallb formOnly evs = true) as Hf by reflexivity.
  split; [split; [exact Hf | split; reflexivity]|].
  destruct (@form_edits_leave_the_map utcHost evs st Hf) as (Hm & _ & _ & _ & Hl).
  split; [exact Hm|].
  apply Hl; [|reflexivity]. do 2 right. left.
Defined.

(** X19. A location selected with coordinates while the provider has no
    map is recorded in the list of locations and gets no marker and no
    route, and a map mounted afterwards starts empty: the list of
    locations and the map then disagree. *)
Theorem selection_before_map_is_not_marked (ty : LocationType) (address : string)
    (la ln : Q) (st : State) :
  MapContext.mapInstance (map st) = None →
  ∃ st1 st2 m,
    handleLocationChange ty address (Some (la, ln)) st = (Ok (), st1) ∧
    mapLocations st1 =
      filter (λ loc, type loc ≠ ty) (mapLocations st) ++
        [{| lat := la; lng := ln; address := address; type := ty |}] ∧
    map st1 = map st ∧
    initMap true st1 = (Ok (), st2) ∧
    mapLocations st2 = mapLocations st1 ∧
    MapContext.mapInstance (map st2) = Some m ∧
    MapContext.attached m = [] ∧ MapContext.layers m = [] ∧
    MapContext.markers (map st2) = MapContext.markers (map st).
Proof.
  intros E. unfold handleLocationChange.
  destruct (setText_ok ty address st) as (st1 & E1 & Hm1 & Hl1).
  erewrite Eff_bind_ok by exact E1.
  set (new := {| lat := la; lng := ln; address := address; type := ty |}).
  rewrite <- Hm1 in E |- *. rewrite <- Hl1.
  erewrite Eff_bind_ok
    by (unfold addMarker; eapply zoom_ok;
        by apply MapContextFacts.addMarker_no_map).
  erewrite Eff_bind_ok by reflexivity.
  assert (setMap (map st1) st1 = st1) as -> by (by destruct st1).
  set (updated := filter (λ loc, type loc ≠ ty) (mapLocations st1) ++ [new]).
  assert (∀ k : Eff State unit,
    ((if (2 <=? length updated)%nat then drawRoute updated else mret ());; k) st1
    = k st1) as ->.
  { intros k. destruct (2 <=? length updated)%nat; [|reflexivity].
    erewrite Eff_bind_ok
      by (unfold drawRoute; eapply zoom_ok;
          by apply MapContextFacts.drawRoute_no_map).
    by destruct st1. }
  destruct st1 as [c p d h locs calc [mi mks init] b clk tms]. cbn in E. subst mi.
  do 3 eexists. split; [reflexivity|]. cbn. repeat split.
Qed.

Lemma selection_before_map_is_not_marked_witness :
  let st := initial Samples.browser0 0%Z in
  MapContext.mapInstance (map st) = None ∧
  ∃ st1 st2,
    handleLocationChange pickup "Depot" (Some (40%Q, (-74)%Q)) st = (Ok (), st1) ∧
    length (mapLocations st1) = 1%nat ∧
    initMap true st1 = (Ok (), st2) ∧
    MapContext.markers (map st2) = [].
Proof.
  intros st.
  assert (MapContext.mapInstance (map st) = None) as E by reflexivity.
  split; [exact E|].
  destruct (selection_before_map_is_not_marked pickup "Depot" 40%Q (-74)%Q st E)
    as (st1 & st2 & m & E1 & Hl & _ & E2 & _ & _ & _ & _ & Hmk).
  exists st1, st2. split; [exact E1|]. split; [by rewrite Hl|].
  split; [exact E2|]. by rewrite Hmk.
Defined.

(** X20. A click on the map of the planning page selects nothing: whatever
    the reverse geocoding answers, the texts, the list of locations, the
    map with its markers and route, local storage and the timers stay as
    they were.  With a first feature the page shows one notice naming that
    feature's place; with no feature, or on a failure, nothing changes at
    all. *)
Theorem map_click_only_notifies (ln la : Q) (r : ReverseResult) (st : State) :
  ∃ st',
    mapClicked ln la r st = (Ok (), st') ∧
    currentLocation st' = currentLocation st ∧
    pickupLocation st' = pickupLocation st ∧
    dropoffLocation st' = dropoffLocation st ∧
    mapLocations st' = mapLocations st ∧
    map st' = map st ∧
    timers st' = timers st ∧
    localStorage (browser st') = localStorage (browser st) ∧
    navigated (browser st') = navigated (browser st) ∧
    match r with
    | ReverseFeatures (f :: _) =>
        toasts (browser st') = toasts (browser st) ++
          [{| title := "Location Selected";
              description :=
                "Click on a location input field, then select this point: "
                  +:+ LocationInput.place_name f;
              variant := None |}]
    | _ => st' = st
    end.
Proof.
  destruct r as [[|f fs]|]; eexists; (split; [reflexivity|]); cbn; by repeat split.
Qed.

End PlanTripRuns.

(** ** The trip provider and its storage slot *)

Module TripContextFacts.
Import TripContext.

Lemma useEffect_mirrors (s : gmap string TripObject) (st : State) :
  (∀ k, k ≠ "tripData" → storage st !! k = s !! k) →
  tripData (useEffect st) = tripData st ∧
  clock (useEffect st) = clock st ∧
  storage (useEffect st) !! "tripData" = tripData st ∧
  ∀ k, k ≠ "tripData" → storage (useEffect st) !! k = s !! k.
Proof.
  intros Hs. unfold useEffect. destruct (tripData st) as [d|] eqn:E; cbn.
  - rewrite lookup_insert_eq. repeat split; [done..|].
    intros k Hk. rewrite lookup_insert_ne by done. by apply Hs.
  - rewrite lookup_delete_eq. repeat split; [done..|].
    intros k Hk. rewrite lookup_delete_ne by done. by apply Hs.
Qed.

Lemma useEffect_settled (st : State) :
  storage st !! "tripData" = tripData st → useEffect st = st.
Proof.
  intros Hs. unfold useEffect. destruct st as [[d|] s now]; cbn in *.
  - by rewrite insert_id.
  - by rewrite delete_id.
Qed.

Section WithHost.
Context `{DateHost}.

Lemma apply_mirrors (s : gmap string TripObject) (o : Op) (st : State) :
  storage st !! "tripData" = tripData st →
  (∀ k, k ≠ "tripData" → storage st !! k = s !! k) →
  storage (apply o st) !! "tripData" = tripData (apply o st) ∧
  ∀ k, k ≠ "tripData" → storage (apply o st) !! k = s !! k.
Proof.
  intros Ht Hs.
  assert (∀ d,
    storage (setTripData d st) !! "tripData" = tripData (setTripData d st) ∧
    ∀ k, k ≠ "tripData" → storage (setTripData d st) !! k = s !! k) as Hset.
  { intros d. unfold setTripData.
    destruct (useEffect_mirrors s
      {| tripData := d; storage := storage st; clock := clock st |} Hs)
      as (-> & _ & -> & Hk).
    by split. }
  destruct o; cbn [apply]; try apply Hset; [|by split].
  unfold planTrip. destruct (Date_toISOString _); [apply Hset | by split].
Qed.

(** X21. The provider keeps its trip in the slot [tripData] of local
    storage: after mounting on any storage and any sequence of calls of
    its functions, the slot holds the current trip (and is absent when
    there is none), every other slot is as it was found, and a provider
    mounted later on that storage starts with the same trip and writes
    nothing new. *)
Theorem storage_mirrors_trip (ops : list Op) (s : gmap string TripObject) (now : Z) :
  let st := run ops (mount s now) in
  storage st !! "tripData" = tripData st ∧
  (∀ k, k ≠ "tripData" → storage st !! k = s !! k) ∧
  ∀ later,
    tripData (mount (storage st) later) = tripData st ∧
    storage (mount (storage st) later) = storage st.
Proof.
  cbn zeta.
  assert (storage (run ops (mount s now)) !! "tripData" =
            tripData (run ops (mount s now)) ∧
          ∀ k, k ≠ "tripData" → storage (run ops (mount s now)) !! k = s !! k)
    as [Ht Hs].
  { assert (storage (mount s now) !! "tripData" = tripData (mount s now) ∧
            ∀ k, k ≠ "tripData" → storage (mount s now) !! k = s !! k) as Hinit.
    { unfold mount.
      destruct (useEffect_mirrors s
        {| tripData := s !! "tripData"; storage := s; clock := now |})
        as (-> & _ & -> & Hk); [done|]. by split. }
    revert Hinit. generalize (mount s now).
    induction ops as [|o ops IH]; intros st Hinv; [exact Hinv|].
    change (run (o :: ops) st) with (run ops (apply o st)).
    apply IH. destruct Hinv. by apply apply_mirrors. }
  revert Ht Hs. generalize (run ops (mount s now)). intros st Ht Hs.
  split; [exact Ht|]. split; [exact Hs|].
  intros later. unfold mount. rewrite Ht.
  rewrite useEffect_settled by exact Ht. by split.
Qed.

End WithHost.


End TripContextFacts.

(** ** The simulated map *)

Module SimulatedMapFacts.
Import Trip SimulatedMap.
Local Open Scope Q_scope.



Lemma linesFrom_zip (locations : list Location) (rest : list Location) (index : nat) :
  rest = drop (S index) locations →
  linesFrom locations index rest = Some (zip_with line (drop index locations) rest).
Proof.
  revert index. induction rest as [|location rest IH]; intros index Hr.
  - cbn. by destruct (drop index locations).
  - assert (locations !! S index = Some location) as Hl.
    { rewrite <- (Nat.add_0_r (S index)), <- lookup_drop, <- Hr. reflexivity. }
    assert (rest = drop (S (S index)) locations) as Hr'.
    { rewrite (drop_S _ _ _ Hl) in Hr. by injection Hr. }
    destruct (locations !! index) as [prevLocation|] eqn:Hp.
    2:{ apply lookup_ge_None in Hp. apply lookup_lt_Some in Hl. lia. }
    cbn [linesFrom]. rewrite Hp. cbn. rewrite (IH (S index) Hr'). cbn.
    rewrite (drop_S _ _ _ Hp), <- Hr. reflexivity.
Qed.

(** X24. The route of the simulated map joins consecutive locations:
    when it is drawn (the map loaded, the route asked for and at least
    two locations) it has one line for each location but the first, from
    the marker position of the location before it to its own, so that
    the lookup of the previous location never meets a missing entry;
    otherwise no line is drawn. *)
Theorem routeLines_join_consecutive (isLoading showRoute : bool)
    (locations : list Location) :
  ∃ lines,
    routeLines isLoading showRoute locations = Some lines ∧
    (if negb isLoading && showRoute && (2 <=? length locations)%nat
     then lines = zip_with line locations (drop 1 locations) ∧
          S (length lines) = length locations
     else lines = []) ∧
    ∀ i x1 y1 x2 y2,
      lines !! i = Some (x1, y1, x2, y2) →
      ∃ prevLocation location,
        locations !! i = Some prevLocation ∧ locations !! S i = Some location ∧
        x1 = markerLeft prevLocation ∧ y1 = markerTop prevLocation ∧
        x2 = markerLeft location ∧ y2 = markerTop location.
Proof.
  unfold routeLines.
  destruct (negb isLoading && showRoute && (2 <=? length locations)%nat) eqn:Ec.
  - rewrite (linesFrom_zip locations (drop 1 locations) 0 eq_refl), drop_0.
    eexists. split; [reflexivity|]. split.
    + split; [reflexivity|]. rewrite length_zip_with, length_drop.
      apply andb_true_iff in Ec as [_ Hn]. apply Nat.leb_le in Hn. lia.
    + intros i x1 y1 x2 y2 Hi. apply lookup_zip_with_Some in Hi
        as (prevLocation & location & Hline & Hp & Hl).
      rewrite lookup_drop in Hl. exists prevLocation, location.
      unfold line in Hline. injection Hline as -> -> -> ->.
      repeat split; assumption.
  - exists []. split; [reflexivity|]. split; [reflexivity|].
    intros i x1 y1 x2 y2 Hi. by rewrite lookup_nil in Hi.
Qed.

End SimulatedMapFacts.

(** ** The location input with mock suggestions *)

Module MockLocationInputFacts.
Import MockLocationInput.

Lemma length_append (a b : string) :
  String.length (a +:+ b) = (String.length a + String.length b)%nat.
Proof.
  induction a as [|c a IH]; [reflexivity|].
  change (S (String.length (a +:+ b)) = S (String.length a + String.length b)).
  by rewrite IH.
Qed.

Lemma hasToken_false (mapboxToken : option string) (b : bool) :
  hasToken mapboxToken = false → b && hasToken mapboxToken = false.
Proof. intros ->. apply andb_false_r. Qed.

(** X25. Without a token, choosing one of the mock suggestions does not
    close the list.  The handler hides the suggestions and passes the
    chosen address to the parent; the address is longer than the text it
    was built from, so the effect runs again and shows three new
    suggestions built from the address.  The input is then marked
    valid. *)
Theorem mock_selection_reopens_list (mapboxToken : option string)
    (suggestion : LocationSuggestion) (st : State) :
  hasToken mapboxToken = false →
  (2 < String.length (value st))%nat →
  suggestion ∈ mockSuggestions (value st) →
  let st' := handleSuggestionClick mapboxToken suggestion st in
  value st' = address suggestion ∧
  (String.length (value st) < String.length (value st'))%nat ∧
  showSuggestions st' = true ∧
  suggestions st' = mockSuggestions (address suggestion) ∧
  isValid st' = true ∧
  timeoutId st' = None.
Proof.
  intros Htok Hlen Hin.
  assert (String.length (value st) + 17 < String.length (address suggestion))%nat
    as Hlonger.
  { unfold mockSuggestions in Hin.
    repeat (apply elem_of_cons in Hin as [->|Hin]);
      [cbn [address]; rewrite length_append; cbn; lia ..|].
    by apply elem_of_nil in Hin. }
  cbn zeta. unfold handleSuggestionClick, render.
  destruct (decide (address suggestion = value st)) as [E|_];
    [rewrite E in Hlonger; lia|].
  unfold useEffect. cbn [value suggestions showSuggestions isValid timeoutId].
  rewrite (hasToken_false _ _ Htok).
  rewrite (proj2 (Nat.ltb_lt 2 _)), (proj2 (Nat.ltb_lt 5 _)) by lia.
  cbn. repeat split. lia.
Qed.

Lemma mock_selection_reopens_list_witness :
  let st := typed None "Newark" {| value := ""; suggestions := [];
                                   showSuggestions := false; isValid := false;
                                   timeoutId := None |} in
  let suggestion := {| id := "2"; address := "Newark - Distribution Center";
                       lat := 40.7580; lng := -73.9855; type := "facility" |} in
  (hasToken None = false ∧ (2 < String.length (value st))%nat ∧
   suggestion ∈ suggestions st) ∧
  showSuggestions (handleSuggestionClick None suggestion st) = true.
Proof.
  intros st suggestion.
  assert (hasToken None = false) as Htok by reflexivity.
  assert (2 < String.length (value st))%nat as Hlen by (vm_compute; lia).
  assert (suggestion ∈ mockSuggestions (value st)) as Hin by (right; left).
  split; [split; [exact Htok | split; [exact Hlen | exact Hin]]|].
  exact (proj1 (proj2 (proj2
    (mock_selection_reopens_list None suggestion st Htok Hlen Hin)))).
Defined.

Lemma typed_keeps_invalid (token v : string) (st : State) :
  token ≠ "" → isValid st = false → isValid (typed (Some token) v st) = false.
Proof.
  intros Htok Hv. unfold typed, render.
  destruct (decide (v = value st)); [exact Hv|].
  unfold useEffect. cbn [value isValid].
  destruct token as [|c token]; [done|]. cbn [hasToken]. rewrite andb_true_r.
  destruct (Nat.ltb_spec 2 (String.length v)) as [|Hs]; [exact Hv|].
  cbn [isValid]. apply Nat.ltb_ge. lia.
Qed.

(** X26. With a token, typing alone never marks the input valid: the
    effect leaves through its cleanup before it sets the flag, or is given
    a text of at most two characters, so that after any sequence of texts
    typed into an input that is not valid the input is still not valid;
    choosing a suggestion with an address of more than two characters
    sets the flag.  Without a token the flag follows the length of each
    new text. *)
Theorem typing_with_token_never_validates (token : string) (texts : list string)
    (st : State) :
  token ≠ "" →
  isValid st = false →
  isValid (foldl (λ st v, typed (Some token) v st) st texts) = false ∧
  (∀ suggestion,
     (2 < String.length (address suggestion))%nat →
     isValid (handleSuggestionClick (Some token) suggestion st) = true) ∧
  ∀ v, v ≠ value st →
       isValid (typed None v st) = (5 <? String.length v)%nat.
Proof.
  intros Htok Hv. split; [|split].
  - revert st Hv. induction texts as [|v texts IH]; intros st Hv; [exact Hv|].
    cbn [foldl]. apply IH. by apply typed_keeps_invalid.
  - intros suggestion Hlen. unfold handleSuggestionClick, render.
    destruct (decide (address suggestion = value st)); [reflexivity|].
    unfold useEffect. cbn [value isValid].
    destruct token as [|c token]; [done|]. cbn [hasToken]. rewrite andb_true_r.
    by rewrite (proj2 (Nat.ltb_lt 2 _)) by lia.
  - intros v Hne. unfold typed, render.
    destruct (decide (v = value st)); [done|].
    unfold useEffect. cbn [value isValid hasToken]. rewrite andb_false_r.
    by destruct (2 <? String.length v)%nat.
Qed.

Lemma typing_with_token_never_validates_witness :
  let st := {| value := ""; suggestions := []; showSuggestions := false;
               isValid := false; timeoutId := None |} in
  ("pk.token" ≠ "" ∧ isValid st = false) ∧
  isValid (foldl (λ st v, typed (Some "pk.token") v st) st
             ["N"; "Ne"; "New"; "Newark, New Jersey"]) = false.
Proof.
  intros st.
  assert ("pk.token" ≠ "") as Htok by discriminate.
  assert (isValid st = false) as Hv by reflexivity.
  split; [split; assumption|].
  exact (proj1 (typing_with_token_never_validates "pk.token"
    ["N"; "Ne"; "New"; "Newark, New Jersey"] st Htok Hv)).
Defined.

End MockLocationInputFacts.
